(** * Project lifecycle and labor-cost aggregation of the back-office API

    A shallow embedding of
    - [src/models/projectModel.ts], [src/models/attendanceModel.ts],
    - [src/controllers/projectController.ts] (and its compiled twin
      [dist/controllers/projectController.js]),
    - [src/controllers/expenseController.ts],
    followed by the properties of the status state machine and of the labor
    aggregator.

    Conventions of the embedding.
    - A MongoDB [ObjectId] is the natural number it encodes; [toString] is
      injective on ids, so maps keyed by [id.toString()] are keyed by the id.
    - JavaScript numbers (progress, salary, counts) are integers of [Z]; the
      handlers only compare, add and multiply them.
    - A [Date] is its number of milliseconds since the epoch.
    - A request handler is a function from the database to a result (a thrown
      error or a response payload) and the database it leaves behind. *)

From stdpp Require Import gmap strings list fin_maps sorting.
From Stdlib Require Import ZArith Lia.

Local Open Scope string_scope.
Local Open Scope Z_scope.

(** ** JavaScript values *)

Module JS.

(** [x || 0] on a possibly missing number: [undefined] and [0] are falsy. *)
Definition or_zero (x : option Z) : Z :=
  match x with
  | Some v => if v =? 0 then 0 else v
  | None => 0
  end.

(** Truthiness of a possibly missing string: [undefined] and the empty
    string are falsy. *)
Definition truthy (s : option string) : bool :=
  match s with
  | Some v => negb (String.eqb v "")
  | None => false
  end.

(** An object literal [{ k1: v1, k2: v2, ... }]: the properties are defined
    from left to right, a repeated key overwrites the earlier value. *)
Definition object {V : Type} (entries : list (string * V)) : gmap string V :=
  foldl (λ o kv, <[kv.1 := kv.2]> o) ∅ entries.

(** [Number.prototype.toString] on a non-negative integer below 10000,
    padded with zeros to [width] digits. *)
Definition digit (d : Z) : string :=
  String (Ascii.ascii_of_nat (48 + Z.to_nat d)) "".

Fixpoint pad (width : nat) (n : Z) : string :=
  match width with
  | O => ""
  | S w => pad w (n / 10) +:+ digit (n mod 10)
  end.

End JS.

(** ** Data model *)

Abbreviation ObjectId := N.

(** [projectSchema.status.enum] *)
Definition status_enum : list string :=
  [ "draft"; "estimation_prepared"; "quotation_sent"; "quotation_approved";
    "quotation_rejected"; "lpo_received"; "team_assigned"; "work_started";
    "in_progress"; "work_completed"; "quality_check"; "client_handover";
    "final_invoice_sent"; "payment_received"; "on_hold"; "cancelled";
    "project_closed" ].

(** The fields of [IProject] that the status machine and the aggregator read
    or write. *)
Record Project := mkProject {
  status : string;
  progress : Z;
  updatedBy : option ObjectId;
  assignedWorkers : list ObjectId;
  assignedDriver : option ObjectId;
}.

(** The fields of [IUser] selected by the controllers. *)
Record User := mkUser {
  role : string;
  firstName : string;
  lastName : string;
  profileImage : option string;
  salary : option Z;
}.

(** [IAttendance] *)
Record Attendance := mkAttendance {
  a_project : option ObjectId;
  a_user : ObjectId;
  a_date : Z;
  a_present : bool;
  a_type : string;
}.

(** The database: three collections and the generator behind
    [new Types.ObjectId()]. *)
Record Db := mkDb {
  projects : gmap ObjectId Project;
  users : gmap ObjectId User;
  attendance : list Attendance;
  next_oid : N;
}.

Definition set_projects (f : gmap ObjectId Project → gmap ObjectId Project)
    (db : Db) : Db :=
  {| projects := f (projects db); users := users db;
     attendance := attendance db; next_oid := next_oid db |}.

(** ** Errors and the handler monad *)

Inductive Error :=
  | ApiError (statusCode : Z) (message : string)
  | ValidationError (path : string).

Definition Handler (A : Type) : Type := Db → (Error + A) * Db.

Definition ret {A} (a : A) : Handler A := λ db, (inr a, db).

Definition throw {A} (e : Error) : Handler A := λ db, (inl e, db).

Definition bind {A B} (m : Handler A) (k : A → Handler B) : Handler B :=
  λ db, match m db with
        | (inl e, db') => (inl e, db')
        | (inr a, db') => k a db'
        end.

Definition read {A} (f : Db → A) : Handler A := λ db, (inr (f db), db).

Definition write (f : Db → Db) : Handler unit := λ db, (inr tt, f db).

(** The handlers are written with the monad notations [x ← m; k] and
    [m;; k]. *)
#[global] Instance handler_ret : MRet Handler := @ret.
#[global] Instance handler_bind : MBind Handler := λ A B k m, bind m k.

(** The status stored for [id] once a handler has run. *)
Definition stored_status {A} (id : ObjectId) (run : (Error + A) * Db)
    : option string :=
  status <$> projects run.2 !! id.

(** ** The Mongoose calls the controllers make *)

Module Mongo.


(** An update document [{ status?, progress?, updatedBy }]. A key whose
    value is [undefined], as [updatedBy] is when the request has no user, is
    dropped from the update and the stored field is kept. *)
Record ProjectUpdate := mkUpdate {
  set_status : option string;
  set_progress : option Z;
  set_updatedBy : option ObjectId;
}.

Definition apply_update (u : ProjectUpdate) (p : Project) : Project :=
  {| status := default (status p) (set_status u);
     progress := default (progress p) (set_progress u);
     updatedBy := match set_updatedBy u with
                  | Some user => Some user
                  | None => updatedBy p
                  end;
     assignedWorkers := assignedWorkers p;
     assignedDriver := assignedDriver p |}.

(** [Project.findById(id)] *)
Definition findById (id : ObjectId) : Handler (option Project) :=
  read (λ db, projects db !! id).

(** [Project.findByIdAndUpdate(id, update, { new: true })] *)
Definition findByIdAndUpdate (id : ObjectId) (u : ProjectUpdate)
    : Handler (option Project) :=
  write (set_projects (alter (apply_update u) id)) ;;
  findById id.

(** The schema validators run by [runValidators: true]. *)
Definition validate (u : ProjectUpdate) : Handler unit :=
  match set_status u with
  | Some s => if bool_decide (s ∈ status_enum) then ret tt
              else throw (ValidationError "status")
  | None => ret tt
  end ;;
  match set_progress u with
  | Some n => if (n <? 0) || (100 <? n) then throw (ValidationError "progress")
              else ret tt
  | None => ret tt
  end.

(** [project.save()] of a document loaded from [id]. *)
Definition save (id : ObjectId) (p : Project) : Handler unit :=
  write (set_projects (<[id := p]>)).

(** [Project.findByIdAndDelete(id)] *)
Definition findByIdAndDelete (id : ObjectId) : Handler unit :=
  write (set_projects (delete id)).

(** [new Types.ObjectId()] *)
Definition newObjectId : Handler ObjectId :=
  λ db, (inr (next_oid db),
         {| projects := projects db; users := users db;
            attendance := attendance db;
            next_oid := N.succ (next_oid db) |}).

End Mongo.

(** ** [controllers/projectController] *)

Module ProjectController.

Import Mongo.

(** The table of [src/controllers/projectController.ts]. *)
Definition validStatusTransitions : gmap string (list string) :=
  JS.object
    [ ("draft", ["estimation_prepared"]);
      ("estimation_prepared", ["quotation_sent"; "on_hold"; "cancelled"]);
      ("quotation_sent",
       ["quotation_approved"; "quotation_rejected"; "on_hold"; "cancelled"]);
      ("quotation_approved", ["lpo_received"; "on_hold"; "cancelled"]);
      ("lpo_received", ["work_started"; "on_hold"; "cancelled"]);
      ("work_started", ["in_progress"; "on_hold"; "cancelled"]);
      ("in_progress", ["work_completed"; "on_hold"; "cancelled"]);
      ("work_completed", ["quality_check"; "on_hold"]);
      ("quality_check", ["client_handover"; "work_completed"]);
      ("client_handover", ["final_invoice_sent"; "on_hold"]);
      ("final_invoice_sent", ["payment_received"; "on_hold"]);
      ("payment_received", ["project_closed"]);
      ("on_hold", ["in_progress"; "work_started"; "cancelled"]);
      ("cancelled", []);
      ("project_closed", []);
      ("team_assigned", ["work_started"; "on_hold"]) ].

(** The table of [dist/controllers/projectController.js]: the keys
    [lpo_received] and [work_started] occur twice. *)
Definition validStatusTransitions_dist : gmap string (list string) :=
  JS.object
    [ ("draft", ["estimation_prepared"]);
      ("estimation_prepared", ["quotation_sent"; "on_hold"; "cancelled"]);
      ("quotation_sent",
       ["quotation_approved"; "quotation_rejected"; "on_hold"; "cancelled"]);
      ("quotation_approved", ["lpo_received"; "on_hold"; "cancelled"]);
      ("lpo_received", ["work_started"; "on_hold"; "cancelled"]);
      ("work_started", ["in_progress"; "on_hold"; "cancelled"]);
      ("in_progress", ["work_completed"; "on_hold"; "cancelled"]);
      ("work_completed", ["quality_check"; "on_hold"]);
      ("quality_check", ["client_handover"; "work_completed"]);
      ("client_handover", ["final_invoice_sent"; "on_hold"]);
      ("final_invoice_sent", ["payment_received"; "on_hold"]);
      ("payment_received", ["project_closed"]);
      ("on_hold", ["in_progress"; "work_started"; "cancelled"]);
      ("cancelled", []);
      ("project_closed", []);
      ("lpo_received", ["team_assigned"; "on_hold"; "cancelled"]);
      ("team_assigned", ["work_started"; "on_hold"]);
      ("work_started", ["in_progress"; "on_hold"; "cancelled"]) ].

(** [table[from]?.includes(to)], read as a condition. *)
Definition includes (table : gmap string (list string)) (from to : string)
    : bool :=
  match table !! from with
  | Some allowed => bool_decide (to ∈ allowed)
  | None => false
  end.

(** The table entry of a status, [table[from]]; no entry allows nothing. *)
Definition entry (table : gmap string (list string)) (from : string)
    : list string :=
  default [] (table !! from).

(** The progress values that pass [updateProject]'s range check. *)
Definition progress_valid (progress' : option Z) : Prop :=
  match progress' with
  | Some n => 0 ≤ n ≤ 100
  | None => True
  end.

(** The inputs that pass the checks of [assignTeamAndDriver]: a non-empty
    list of distinct users with the role [worker], and a user with the role
    [driver]. *)
Definition valid_team (us : gmap ObjectId User) (ws : list ObjectId)
    (d : ObjectId) : Prop :=
  ws ≠ [] ∧ NoDup ws
  ∧ (∀ w, w ∈ ws → ∃ u, us !! w = Some u ∧ role u = "worker")
  ∧ ∃ u, us !! d = Some u ∧ role u = "driver".

Definition invalid_transition (from to : string) : Error :=
  ApiError 400 ("Invalid status transition from " +:+ from +:+ " to " +:+ to).

Section Handlers.

(** The two variants of the controller differ in the table only. *)
Variable table : gmap string (list string).

(** [req.user?.userId] *)
Variable userId : option ObjectId.

(** [updateProjectStatus], with [req.params.id] and [req.body.status]. *)
Definition updateProjectStatus (id : ObjectId) (status' : option string)
    : Handler (option Project) :=
  match status' with
  | Some target =>
    if JS.truthy status' then
      found ← findById id;
      match found with
      | None => throw (ApiError 404 "Project not found")
      | Some project =>
        if negb (includes table (status project) target) then
          throw (invalid_transition (status project) target)
        else
          findByIdAndUpdate id
            {| set_status := Some target; set_progress := None;
               set_updatedBy := userId |}
      end
    else throw (ApiError 400 "Status is required")
  | None => throw (ApiError 400 "Status is required")
  end.

(** [updateProject] on a request body that holds the fields [status] and
    [progress], each a string or a number or absent, and nothing else.  The
    handler copies the whole body into the update; bodies with further
    fields ([assignedWorkers], update operators, ...) or with [null] values
    are not part of this model. *)
Definition updateProject (id : ObjectId) (status' : option string)
    (progress' : option Z) : Handler (option Project) :=
  found ← findById id;
  match found with
  | None => throw (ApiError 404 "Project not found")
  | Some project =>
    match progress' with
    | Some n =>
      if (n <? 0) || (100 <? n)
      then throw (ApiError 400 "Progress must be between 0 and 100")
      else ret tt
    | None => ret tt
    end ;;
    match status' with
    | Some target =>
      if JS.truthy status' && negb (includes table (status project) target)
      then throw (invalid_transition (status project) target)
      else ret tt
    | None => ret tt
    end ;;
    let updateData :=
      {| set_status := status'; set_progress := progress';
         set_updatedBy := userId |} in
    validate updateData ;;
    findByIdAndUpdate id updateData
  end.

(** [deleteProject] *)
Definition deleteProject (id : ObjectId) : Handler unit :=
  found ← findById id;
  match found with
  | None => throw (ApiError 404 "Project not found")
  | Some project =>
    if negb (String.eqb (status project) "draft") then
      throw (ApiError 400 "Cannot delete project that has already started")
    else
      findByIdAndDelete id
  end.

Definition with_status (p : Project) (s : string) : Project :=
  {| status := s; progress := progress p; updatedBy := updatedBy p;
     assignedWorkers := assignedWorkers p;
     assignedDriver := assignedDriver p |}.

(** The block "Update project status based on progress" of
    [updateProjectProgress]: two consecutive [if]s on the loaded
    document, whose [progress] is still the stored one. *)
Definition auto_advance (project : Project) : Project :=
  let project :=
    if (0 <=? progress project)
       && String.eqb (status project) "team_assigned"
    then with_status project "work_started" else project in
  if (0 <? progress project)
     && String.eqb (status project) "work_started"
  then with_status project "in_progress" else project.

(** [updateProjectProgress], with [req.body.progress] a number or absent
    ([None]), up to the two writes to the Project collection.  A [null]
    progress, which the handler's range check lets through, is not part of
    this model; neither are the comment and the e-mail that follow, which
    write to other collaborators. *)
Definition updateProjectProgress (id : ObjectId) (progress' : option Z)
    : Handler (option Project) :=
  match progress' with
  | None => throw (ApiError 400 "Progress must be between 0 and 100")
  | Some newProgress =>
    if (newProgress <? 0) || (100 <? newProgress) then
      throw (ApiError 400 "Progress must be between 0 and 100")
    else
      found ← findById id;
      match found with
      | None => throw (ApiError 404 "Project not found")
      | Some project =>
        let project := auto_advance project in
        let updateData :=
          {| set_status :=
               if (newProgress =? 100)
                  && negb (String.eqb (status project) "work_completed")
               then Some "work_completed" else None;
             set_progress := Some newProgress;
             set_updatedBy := userId |} in
        save id project;;
        findByIdAndUpdate id updateData
      end
  end.

(** [User.find({ _id: { $in: workers }, role: "worker" })] *)
Definition find_workers (workers : list ObjectId) : Handler (list ObjectId) :=
  read (λ db,
    (filter (λ kv : ObjectId * User,
               kv.1 ∈ workers ∧ role kv.2 = "worker")
            (map_to_list (users db))).*1).

(** [User.findOne({ _id: driverId, role: "driver" })] *)
Definition find_driver (driverId : ObjectId) : Handler (option User) :=
  read (λ db,
    match users db !! driverId with
    | Some u => if String.eqb (role u) "driver" then Some u else None
    | None => None
    end).

(** [assignTeamAndDriver], with [req.body.workers] ([None] when it is
    not an array) and [req.body.driverId]. *)
Definition assignTeamAndDriver (projectId : ObjectId)
    (workers : option (list ObjectId)) (driverId : option ObjectId)
    : Handler Project :=
  match workers, driverId with
  | Some ws, Some d =>
    if (length ws =? 0)%nat then
      throw (ApiError 400 "Both workers array and driverId are required")
    else
      found ← findById projectId;
      match found with
      | None => throw (ApiError 404 "Project not found")
      | Some project =>
        if negb (String.eqb (status project) "lpo_received") then
          throw (ApiError 400 "Project must be in 'lpo_received' status")
        else
          validWorkers ← find_workers ws;
          if negb (length validWorkers =? length ws)%nat then
            throw (ApiError 400 "All workers must be engineers")
          else
            driver ← find_driver d;
            match driver with
            | None => throw (ApiError 400 "Valid driver ID is required")
            | Some _ =>
              let project :=
                {| status := "team_assigned";
                   progress := progress project;
                   updatedBy := userId;
                   assignedWorkers := ws;
                   assignedDriver := Some d |} in
              save projectId project;;
              ret project
            end
      end
  | _, _ =>
    throw (ApiError 400 "Both workers array and driverId are required")
  end.

End Handlers.

End ProjectController.

(** ** [controllers/expenseController] *)

Module ExpenseController.

Import Mongo.

(** [WorkerLabor] and [DriverLabor] have the same shape. *)
Record Labor := mkLabor {
  user : ObjectId;
  l_firstName : string;
  l_lastName : string;
  l_profileImage : option string;
  daysPresent : Z;
  dailySalary : Z;
  totalSalary : Z;
}.

Record LaborDetails := mkLaborDetails {
  workers : list Labor;
  driver : Labor;
  totalLaborCost : Z;
}.

(** [populate]: every reference that resolves is replaced by its document,
    kept with its [_id]. *)
Definition populate (us : gmap ObjectId User) (ids : list ObjectId)
    : list (ObjectId * User) :=
  omap (λ i, (λ u, (i, u)) <$> us !! i) ids.

Definition populate_one (us : gmap ObjectId User) (id : option ObjectId)
    : option (ObjectId * User) :=
  i ← id; (λ u, (i, u)) <$> us !! i.

(** MongoDB's [$dateToString] with the format [%Y-%m-%d] and no time zone:
    the proleptic Gregorian date in UTC of an instant given in
    milliseconds, as four digits of the year, two of the month and two of
    the day.  The operator is defined on the years 0000 to 9999 only, and
    the embedding is meant for the instants of those years
    ([Calendar.in_four_digit_years]): beyond them the four digits below
    are the year modulo 10000. *)
Definition dateToString (ms : Z) : string :=
  let z := ms / 86400000 + 719468 in
  let era := z / 146097 in
  let doe := z - era * 146097 in
  let yoe := (doe - doe / 1460 + doe / 36524 - doe / 146096) / 365 in
  let doy := doe - (365 * yoe + yoe / 4 - yoe / 100) in
  let mp := (5 * doy + 2) / 153 in
  let d := doy - (153 * mp + 2) / 5 + 1 in
  let m := if mp <? 10 then mp + 3 else mp - 9 in
  let y := yoe + era * 400 + (if m <=? 2 then 1 else 0) in
  JS.pad 4 y +:+ "-" +:+ JS.pad 2 m +:+ "-" +:+ JS.pad 2 d.

(** The stages of the aggregation pipeline: [$match], [$group] on the
    calendar date (one output document per distinct date) and [$count]
    (no output document at all on an empty input). *)
Definition match_stage (projectId : ObjectId) (coll : list Attendance)
    : list Attendance :=
  filter (λ r, a_project r = Some projectId ∧ a_present r = true) coll.

Definition group_stage (docs : list Attendance) : list string :=
  remove_dups (dateToString ∘ a_date <$> docs).

Definition count_stage (groups : list string) : list Z :=
  match groups with
  | [] => []
  | _ => [Z.of_nat (length groups)]
  end.

(** [workerDaysMap.set(id, (workerDaysMap.get(id) || 0) + 1)] *)
Definition count_day (m : gmap ObjectId Z) (record : Attendance)
    : gmap ObjectId Z :=
  <[a_user record := JS.or_zero (m !! a_user record) + 1]> m.

Definition calculateLaborDetails (projectId : ObjectId)
    : Handler LaborDetails :=
  found ← findById projectId;
  match found with
  | None => throw (ApiError 404 "Project not found")
  | Some project =>
    us ← read users;
    let assignedWorkers := populate us (assignedWorkers project) in
    let assignedDriver := populate_one us (assignedDriver project) in
    workerAttendanceRecords ← read (λ db,
      filter (λ r, a_project r = Some projectId ∧ a_present r = true
                   ∧ a_user r ∈ assignedWorkers.*1)
             (attendance db));
    let workerDaysMap := foldl count_day ∅ workerAttendanceRecords in
    projectAttendanceDates ← read (λ db,
      count_stage (group_stage (match_stage projectId (attendance db))));
    let driverDaysPresent := JS.or_zero (head projectAttendanceDates) in
    let workers :=
      (λ worker : ObjectId * User,
         {| user := worker.1;
            l_firstName := firstName worker.2;
            l_lastName := lastName worker.2;
            l_profileImage := profileImage worker.2;
            daysPresent := JS.or_zero (workerDaysMap !! worker.1);
            dailySalary := JS.or_zero (salary worker.2);
            totalSalary := JS.or_zero (workerDaysMap !! worker.1)
                           * JS.or_zero (salary worker.2) |})
        <$> assignedWorkers in
    driver ←
      match assignedDriver with
      | Some d =>
        ret {| user := d.1;
               l_firstName := firstName d.2;
               l_lastName := lastName d.2;
               l_profileImage := profileImage d.2;
               daysPresent := driverDaysPresent;
               dailySalary := JS.or_zero (salary d.2);
               totalSalary := driverDaysPresent * JS.or_zero (salary d.2) |}
      | None =>
        fresh ← newObjectId;
        ret {| user := fresh; l_firstName := ""; l_lastName := "";
               l_profileImage := None;
               daysPresent := 0; dailySalary := 0; totalSalary := 0 |}
      end;
    let totalLaborCost :=
      foldl (λ sum worker, sum + totalSalary worker) 0 workers
      + totalSalary driver in
    ret {| workers := workers; driver := driver;
           totalLaborCost := totalLaborCost |}
  end.

End ExpenseController.

(** ** Calendar days *)

Module Calendar.

(** The UTC calendar day of an instant: the number of whole days of
    86 400 000 ms between the epoch and the instant, negative before 1970.
    Two instants are on the same calendar date exactly when they have the
    same day number. *)
Definition utc_day (ms : Z) : Z := ms / 86400000.

(** The instants from 0000-01-01T00:00:00.000Z to 9999-12-31T23:59:59.999Z,
    on which [$dateToString] is defined. *)
Definition in_four_digit_years (ms : Z) : Prop :=
  -62167219200000 ≤ ms < 253402300800000.

#[global] Instance in_four_digit_years_dec ms
  : Decision (in_four_digit_years ms) :=
  decide (-62167219200000 ≤ ms ∧ ms < 253402300800000).

End Calendar.

(** ** The labor breakdown in the words of the specification *)

Module LaborSpec.

Import ExpenseController Calendar.

(** "The number of attendance records where [present = true] and [user]
    is the worker, scoped to the project": an exact count, a date that
    occurs twice is counted twice. *)
Definition worker_days (projectId user : ObjectId) (coll : list Attendance)
    : Z :=
  Z.of_nat (length (filter
    (λ r, a_project r = Some projectId ∧ a_present r = true
          ∧ a_user r = user) coll)).

(** "The distinct calendar dates across all [present = true] attendance
    records for the project", whoever the record belongs to. *)
Definition attended_dates (projectId : ObjectId) (coll : list Attendance)
    : gset string :=
  list_to_set (dateToString ∘ a_date <$>
    filter (λ r, a_project r = Some projectId ∧ a_present r = true) coll).

Definition distinct_dates (projectId : ObjectId) (coll : list Attendance)
    : Z :=
  Z.of_nat (size (attended_dates projectId coll)).

(** The same in calendar days, with no reference to how the database
    formats a date: the UTC days on which the project has a
    [present = true] record, and their number. *)
Definition attended_days (projectId : ObjectId) (coll : list Attendance)
    : gset Z :=
  list_to_set (utc_day ∘ a_date <$>
    filter (λ r, a_project r = Some projectId ∧ a_present r = true) coll).

Definition distinct_days (projectId : ObjectId) (coll : list Attendance)
    : Z :=
  Z.of_nat (size (attended_days projectId coll)).

(** The [present = true] records of the project are dated within the years
    0000 to 9999. *)
Definition dates_in_range (projectId : ObjectId) (coll : list Attendance)
    : Prop :=
  Forall (λ r, in_four_digit_years (a_date r))
    (filter (λ r, a_project r = Some projectId ∧ a_present r = true) coll).

(** "Per-worker total = daysPresent × dailySalary (salary defaults to 0 if
    unset)." *)
Definition paid (days : Z) (someone : ObjectId * User) : Labor :=
  {| user := someone.1;
     l_firstName := firstName someone.2;
     l_lastName := lastName someone.2;
     l_profileImage := profileImage someone.2;
     daysPresent := days;
     dailySalary := default 0 (salary someone.2);
     totalSalary := days * default 0 (salary someone.2) |}.

(** "Σ workers' totals" *)
Definition sum_salaries (ws : list Labor) : Z :=
  foldr Z.add 0 (totalSalary <$> ws).

(** The figures of a breakdown: days, daily salary and total of every
    worker and of the driver, and the total labor cost. *)
Definition figures (l : Labor) : Z * Z * Z :=
  (daysPresent l, dailySalary l, totalSalary l).

Definition totals (d : LaborDetails) : list (Z * Z * Z) * (Z * Z * Z) * Z :=
  (figures <$> workers d, figures (driver d), totalLaborCost d).

End LaborSpec.

(** ** The claims that the code does not satisfy, as they are worded *)

Module AsStated.

Import ProjectController.

(** "For a project whose current status is [lpo_received], the set of
    targets accepted by the status-transition check is exactly
    {work_started, team_assigned, on_hold, cancelled}." *)
Definition lpo_received_targets (table : gmap string (list string)) : Prop :=
  ∀ target : string,
    includes table "lpo_received" target = true
    ↔ target ∈ ["work_started"; "team_assigned"; "on_hold"; "cancelled"].

(** "For every project in status [team_assigned], when progress becomes
    ≥ 0 the status auto-advances to [work_started]; for every project in
    status [work_started], when the newly submitted progress value is
    greater than zero the status auto-advances to [in_progress]." *)
Definition progress_auto_advance : Prop :=
  ∀ (userId : option ObjectId) (db : Db) (id : ObjectId) (p : Project)
    (newProgress : Z),
    projects db !! id = Some p →
    0 ≤ newProgress ≤ 100 →
    (status p = "team_assigned" →
     stored_status id (updateProjectProgress userId id (Some newProgress) db)
     = Some "work_started")
    ∧ (status p = "work_started" → 0 < newProgress →
       stored_status id (updateProjectProgress userId id (Some newProgress) db)
       = Some "in_progress").

End AsStated.

(** ** Sample data *)

Module Sample.

Definition worker (pay : option Z) : User :=
  {| role := "worker"; firstName := "A"; lastName := "W";
     profileImage := None; salary := pay |}.

Definition chauffeur (pay : option Z) : User :=
  {| role := "driver"; firstName := "D"; lastName := "R";
     profileImage := None; salary := pay |}.

Definition present (project user : ObjectId) (date : Z) : Attendance :=
  {| a_project := Some project; a_user := user; a_date := date;
     a_present := true; a_type := "project" |}.

(** 2024-01-01T00:00:00Z and 2024-01-02T00:00:00Z *)
Definition day1 : Z := 1704067200000.
Definition day2 : Z := 1704153600000.

(** Project 1 is the example scenario of the specification: workers 10 and
    11, driver 12, 50 a day each; 10 attended on both days, 11 on the
    first, the driver on none. Project 4 has attendance on two dates, by
    two different users, and the driver 13 at 100 a day. *)
Definition db : Db :=
  {| projects :=
       {[ 1%N := mkProject "work_started" 0 None [10%N; 11%N] (Some 12%N);
          2%N := mkProject "lpo_received" 0 None [] None;
          3%N := mkProject "draft" 0 None [] None;
          4%N := mkProject "team_assigned" 30 None [10%N] (Some 13%N) ]};
     users :=
       {[ 10%N := worker (Some 50); 11%N := worker (Some 50);
          12%N := chauffeur (Some 50); 13%N := chauffeur (Some 100) ]};
     attendance :=
       [ present 1%N 10%N day1; present 1%N 10%N day2;
         present 1%N 11%N day1; present 4%N 10%N day1;
         present 4%N 11%N day2 ];
     next_oid := 100%N |}.

End Sample.

(** ** [controllers/projectController]: the team of a project *)

Module Team.

Import Mongo ProjectController.

(** [req.body.workers]: absent, an array of ids, or any other value, of
    which only the truthiness matters. *)
Inductive WorkersField :=
  | WorkersUndefined
  | WorkersArray (ws : list ObjectId)
  | WorkersOther (truthy : bool).

(** [req.body.driver]: absent, a falsy value such as [null] or the empty
    string, or an id. *)
Inductive DriverField :=
  | DriverUndefined
  | DriverNull
  | DriverId (d : ObjectId).

(** An array is truthy, also when it is empty. *)
Definition workers_truthy (workers : WorkersField) : bool :=
  match workers with
  | WorkersUndefined => false
  | WorkersArray _ => true
  | WorkersOther truthy => truthy
  end.

Definition driver_truthy (driver : DriverField) : bool :=
  match driver with
  | DriverId _ => true
  | _ => false
  end.

Definition with_workers (p : Project) (ws : list ObjectId) : Project :=
  {| status := status p; progress := progress p; updatedBy := updatedBy p;
     assignedWorkers := ws; assignedDriver := assignedDriver p |}.

Definition with_driver (p : Project) (d : option ObjectId) : Project :=
  {| status := status p; progress := progress p; updatedBy := updatedBy p;
     assignedWorkers := assignedWorkers p; assignedDriver := d |}.

(** [updateWorkersAndDriver], with [req.params.id] (always present on the
    route) and the fields [workers] and [driver] of the body. *)
Definition updateWorkersAndDriver (id : ObjectId) (workers : WorkersField)
    (driver : DriverField) : Handler Project :=
  if negb (workers_truthy workers) && negb (driver_truthy driver) then
    throw (ApiError 400 "Either workers or driver must be provided")
  else
    found ← findById id;
    match found with
    | None => throw (ApiError 400 "Project not found")
    | Some project =>
      project ←
        match workers with
        | WorkersUndefined => ret project
        | WorkersOther _ => throw (ApiError 400 "Workers must be an array")
        | WorkersArray ws =>
          workersExist ← find_workers ws;
          if negb (length workersExist =? length ws)%nat then
            throw (ApiError 400 "One or more workers not found or not workers")
          else ret (with_workers project ws)
        end;
      project ←
        match driver with
        | DriverUndefined => ret project
        | DriverId d =>
          driverExists ← find_driver d;
          match driverExists with
          | None => throw (ApiError 400 "Driver not found or not a driver")
          | Some _ => ret (with_driver project (Some d))
          end
        | DriverNull => ret (with_driver project None)
        end;
      save id project;;
      ret project
    end.

(** A user as [populate(path, "firstName lastName profileImage")] returns
    it. *)
Record Member := mkMember {
  m_id : ObjectId;
  m_firstName : string;
  m_lastName : string;
  m_profileImage : option string;
}.

Definition select_member (someone : ObjectId * User) : Member :=
  {| m_id := someone.1; m_firstName := firstName someone.2;
     m_lastName := lastName someone.2;
     m_profileImage := profileImage someone.2 |}.

(** [getAssignedTeam]: the payload [{ workers, driver }]. *)
Definition getAssignedTeam (projectId : ObjectId)
    : Handler (list Member * option Member) :=
  found ← findById projectId;
  match found with
  | None => throw (ApiError 404 "Project not found")
  | Some project =>
    us ← read users;
    ret (select_member <$> ExpenseController.populate us
                             (assignedWorkers project),
         select_member <$> ExpenseController.populate_one us
                             (assignedDriver project))
  end.

End Team.

(** ** [controllers/projectController] and [controllers/expenseController]:
    paginated lists *)

Module Listing.

(** [parseInt(req.query.x) || fallback], on the integer that [parseInt]
    reads from the query, [None] when it reads [NaN]. *)
Definition or_default (x : option Z) (fallback : Z) : Z :=
  match x with
  | Some v => if v =? 0 then fallback else v
  | None => fallback
  end.

(** [Math.ceil(a / b)] on integers, [b] not 0. *)
Definition ceil_div (a b : Z) : Z := - ((- a) / b).

Record Pagination := mkPagination {
  total : Z;
  page : Z;
  limit : Z;
  totalPages : Z;
  hasNextPage : bool;
  hasPreviousPage : bool;
}.

(** The query [find(filter).skip(skip).limit(limit).sort(...)] on the
    documents [found] that match the filter, already in the order of the
    sort, and the [pagination] object of the response. This is the code
    shared by [getProjects], [getEngineerProjects], [getDriverProjects] and
    [getProjectExpenses]; a negative [skip] or [limit] is decided by the
    database driver and is outside the model. *)
Definition paginate {A} (page' limit' : option Z) (found : list A)
    : list A * Pagination :=
  let page := or_default page' 1 in
  let limit := or_default limit' 10 in
  let skip := (page - 1) * limit in
  let total := Z.of_nat (length found) in
  (take (Z.to_nat limit) (drop (Z.to_nat skip) found),
   {| total := total; page := page; limit := limit;
      totalPages := ceil_div total limit;
      hasNextPage := page * limit <? total;
      hasPreviousPage := 1 <? page |}).

Section DriverProjects.

(** The [$or] of case-insensitive regular expressions on the text fields
    of a project, which are not part of the model. *)
Variable search_matches : string → Project → bool.

(** The order of [sort({ createdAt: -1 })]. *)
Variable newest_first :
  list (ObjectId * Project) → list (ObjectId * Project).

(** The filter of [getDriverProjects]. *)
Definition driver_filter (driverId : ObjectId) (status' search' : option string)
    (p : Project) : bool :=
  bool_decide (assignedDriver p = Some driverId)
  && match status' with
     | Some s => if JS.truthy status' then String.eqb (status p) s else true
     | None => true
     end
  && match search' with
     | Some term => if JS.truthy search' then search_matches term p else true
     | None => true
     end.

(** [getDriverProjects], with [req.user?.userId] and the query parameters
    [page], [limit], [status] and [search]. *)
Definition getDriverProjects (userId : option ObjectId)
    (page' limit' : option Z) (status' search' : option string)
    : Handler (list (ObjectId * Project) * Pagination) :=
  match userId with
  | None => throw (ApiError 401 "Unauthorized access")
  | Some driverId =>
    matching ← read (λ db,
      filter (λ kv : ObjectId * Project,
                driver_filter driverId status' search' kv.2 = true)
             (map_to_list (projects db)));
    ret (paginate page' limit' (newest_first matching))
  end.

End DriverProjects.

End Listing.

(** ** [controllers/expenseController]: labor data *)

Module ExpenseReports.

Import ExpenseController.

(** [try { ... } catch (error) { ... }] *)
Definition try_catch {A} (body : Handler A) (handler : Error → Handler A)
    : Handler A :=
  λ db, match body db with
        | (inl e, db') => handler e db'
        | (inr a, db') => (inr a, db')
        end.

(** [getProjectLaborData] *)
Definition getProjectLaborData (projectId : ObjectId) : Handler LaborDetails :=
  try_catch (calculateLaborDetails projectId)
    (λ _, throw (ApiError 500 "Failed to fetch labor data")).

End ExpenseReports.

(** ** One more attendance record *)

Module Marking.

(** The database once the attendance record [r] has been stored. *)
Definition marked (r : Attendance) (db : Db) : Db :=
  {| projects := projects db; users := users db;
     attendance := r :: attendance db; next_oid := next_oid db |}.

End Marking.

(** ** Sequences of requests *)

Module Api.

Import ProjectController Team.

(** A request to one of six handlers: [updateProjectStatus],
    [updateProjectProgress], [deleteProject], [assignTeamAndDriver],
    [updateWorkersAndDriver] and [getProjectLaborData], with the
    authenticated user where the handler reads it and the fields of the
    body as the models of the handlers take them.  [updateProject], which
    hands the whole request body to [findByIdAndUpdate], and
    [createProject] are not among them. *)
Inductive Call :=
  | UpdateProjectStatus (userId : option ObjectId) (id : ObjectId)
      (status' : option string)
  | UpdateProjectProgress (userId : option ObjectId) (id : ObjectId)
      (progress' : option Z)
  | DeleteProject (id : ObjectId)
  | AssignTeamAndDriver (userId : option ObjectId) (id : ObjectId)
      (workers : option (list ObjectId)) (driverId : option ObjectId)
  | UpdateWorkersAndDriver (id : ObjectId) (workers : WorkersField)
      (driver : DriverField)
  | GetProjectLaborData (id : ObjectId).

(** The database a request leaves behind. *)
Definition call (table : gmap string (list string)) (c : Call) (db : Db)
    : Db :=
  match c with
  | UpdateProjectStatus userId id status' =>
    (updateProjectStatus table userId id status' db).2
  | UpdateProjectProgress userId id progress' =>
    (updateProjectProgress userId id progress' db).2
  | DeleteProject id => (deleteProject id db).2
  | AssignTeamAndDriver userId id workers driverId =>
    (assignTeamAndDriver userId id workers driverId db).2
  | UpdateWorkersAndDriver id workers driver =>
    (updateWorkersAndDriver id workers driver db).2
  | GetProjectLaborData id =>
    (ExpenseReports.getProjectLaborData id db).2
  end.

Definition calls (table : gmap string (list string)) (cs : list Call)
    (db : Db) : Db :=
  foldl (λ db c, call table c db) db cs.

(** The invariant of the data model: the status is one of the enum and the
    progress is between 0 and 100. *)
Definition project_ok (p : Project) : Prop :=
  status p ∈ status_enum ∧ 0 ≤ progress p ≤ 100.

(** The team of a project: distinct users with the role [worker], and a
    user with the role [driver] if there is a driver. *)
Definition team_ok (us : gmap ObjectId User) (p : Project) : Prop :=
  NoDup (assignedWorkers p)
  ∧ (∀ w, w ∈ assignedWorkers p →
          ∃ u, us !! w = Some u ∧ role u = "worker")
  ∧ (∀ d, assignedDriver p = Some d →
          ∃ u, us !! d = Some u ∧ role u = "driver").

(** Every stored project satisfies a property. *)
Definition all_projects (P : Project → Prop) (db : Db) : Prop :=
  ∀ id p, projects db !! id = Some p → P p.

(** Every target of the table is a status of the enum. *)
Definition table_in_enum (table : gmap string (list string)) : Prop :=
  ∀ from to, to ∈ entry table from → to ∈ status_enum.

(** No entry of the table leads back to [draft]. *)
Definition never_draft (table : gmap string (list string)) : Prop :=
  ∀ from, "draft" ∉ entry table from.

(** Some sequence of requests brings the stored project [id] to the status
    [s]. *)
Definition reachable (table : gmap string (list string)) (db : Db)
    (id : ObjectId) (s : string) : Prop :=
  ∃ (cs : list Call) (p : Project),
    projects (calls table cs db) !! id = Some p ∧ status p = s.

End Api.

(** ** More sample data *)

Module Cases.

Import Team Api.

(** The sample database with a cancelled project 9. *)
Definition with_cancelled : Db :=
  set_projects (<[9%N := mkProject "cancelled" 50 None [] None]>) Sample.db.

(** A record of an absence, on project 1. *)
Definition absence : Attendance :=
  {| a_project := Some 1%N; a_user := 10%N; a_date := 1704240000000;
     a_present := false; a_type := "project" |}.

(** A second presence of user 11 on project 4, later on the second day. *)
Definition second_mark : Attendance :=
  Sample.present 4%N 11%N (Sample.day2 + 3600000).

(** One project in [lpo_received], two workers and a driver. *)
Definition small : Db :=
  {| projects := {[ 1%N := mkProject "lpo_received" 0 None [] None ]};
     users := {[ 10%N := Sample.worker (Some 50);
                 11%N := Sample.worker None;
                 12%N := Sample.chauffeur (Some 80) ]};
     attendance := []; next_oid := 0%N |}.

(** A day in the life of project 1 of [small]. *)
Definition day : list Call :=
  [ AssignTeamAndDriver (Some 7%N) 1%N (Some [10%N; 11%N]) (Some 12%N);
    UpdateProjectProgress (Some 7%N) 1%N (Some 20);
    UpdateProjectStatus (Some 7%N) 1%N (Some "draft");
    UpdateProjectProgress (Some 7%N) 1%N (Some 101);
    UpdateWorkersAndDriver 1%N (WorkersArray [11%N]) DriverUndefined;
    DeleteProject 1%N;
    GetProjectLaborData 1%N;
    UpdateProjectStatus (Some 7%N) 1%N (Some "in_progress") ].

(** Twenty-five documents, numbered in the order of the sort. *)
Definition documents : list nat := seq 1 25.

End Cases.

(** * Properties *)

(** ** The handler monad and the Mongoose calls *)

(** Unfolds the monad and the Mongoose calls down to the database. *)
Ltac run_handler :=
  unfold Mongo.findByIdAndUpdate, Mongo.findByIdAndDelete, Mongo.save,
    Mongo.findById, Mongo.validate, Mongo.newObjectId;
  unfold mbind, mret, handler_bind, handler_ret, bind, write, read, ret,
    throw, set_projects;
  cbn [projects users attendance next_oid fst snd].

Section Store.

Implicit Types (db : Db) (id : ObjectId) (p : Project).

Lemma alter_found (f : Project → Project) id p (m : gmap ObjectId Project) :
  m !! id = Some p → alter f id m = <[id := f p]> m.
Proof.
  intros Hp. apply map_eq. intros j.
  destruct (decide (id = j)) as [->|Hne].
  - by rewrite lookup_alter_eq, lookup_insert_eq, Hp.
  - by rewrite lookup_alter_ne, lookup_insert_ne.
Qed.

Lemma findByIdAndUpdate_found id u db p :
  projects db !! id = Some p →
  Mongo.findByIdAndUpdate id u db
  = (inr (Some (Mongo.apply_update u p)),
     set_projects (<[id := Mongo.apply_update u p]>) db).
Proof.
  intros Hp. run_handler.
  by rewrite lookup_alter_eq, Hp, (alter_found _ _ _ _ Hp).
Qed.

End Store.

(** ** The status state machine *)

Section StateMachine.

Import Mongo ProjectController.

Variable table : gmap string (list string).
Variable userId : option ObjectId.

Implicit Types (db : Db) (id : ObjectId) (p : Project).

Lemma includes_entry (from to : string) :
  includes table from to = true ↔ to ∈ entry table from.
Proof.
  unfold includes, entry. destruct (table !! from) as [allowed|]; cbn.
  - apply bool_decide_eq_true.
  - split; [discriminate | by intros ?%elem_of_nil].
Qed.

Lemma includes_not_entry (from to : string) :
  includes table from to = false ↔ to ∉ entry table from.
Proof.
  rewrite <- includes_entry. destruct (includes table from to); naive_solver.
Qed.

Lemma enum_truthy (s : string) :
  s ∈ status_enum → JS.truthy (Some s) = true.
Proof.
  intros Hs. cbn. destruct (String.eqb_spec s "") as [->|]; [|done].
  exfalso. revert Hs. apply (bool_decide_eq_false_1 _). by vm_compute.
Qed.

Lemma progress_valid_check (n : Z) :
  0 ≤ n ≤ 100 → (n <? 0) || (100 <? n) = false.
Proof. intros. apply orb_false_intro; lia. Qed.

Lemma updateProjectStatus_accepts db id p target :
  projects db !! id = Some p →
  JS.truthy (Some target) = true →
  target ∈ entry table (status p) →
  updateProjectStatus table userId id (Some target) db
  = (inr (Some (apply_update (mkUpdate (Some target) None userId) p)),
     set_projects
       (<[id := apply_update (mkUpdate (Some target) None userId) p]>) db).
Proof.
  intros Hp Ht Hin. unfold updateProjectStatus. rewrite Ht.
  apply includes_entry in Hin.
  rewrite <- (findByIdAndUpdate_found _ _ _ _ Hp).
  run_handler. by rewrite Hp, Hin.
Qed.

Lemma updateProjectStatus_rejects db id p target :
  projects db !! id = Some p →
  JS.truthy (Some target) = true →
  target ∉ entry table (status p) →
  updateProjectStatus table userId id (Some target) db
  = (inl (invalid_transition (status p) target), db).
Proof.
  intros Hp Ht Hin. unfold updateProjectStatus. rewrite Ht.
  apply includes_not_entry in Hin.
  run_handler. by rewrite Hp, Hin.
Qed.

Lemma updateProject_accepts db id p target progress' :
  projects db !! id = Some p →
  target ∈ status_enum →
  progress_valid progress' →
  target ∈ entry table (status p) →
  updateProject table userId id (Some target) progress' db
  = (inr (Some (apply_update (mkUpdate (Some target) progress' userId) p)),
     set_projects
       (<[id := apply_update (mkUpdate (Some target) progress' userId) p]>)
       db).
Proof.
  intros Hp He Hr Hin. apply includes_entry in Hin.
  rewrite <- (findByIdAndUpdate_found _ _ _ _ Hp).
  unfold updateProject. run_handler. rewrite Hp, Hin, andb_false_r.
  cbn [set_status set_progress]. rewrite (bool_decide_eq_true_2 _ He).
  destruct progress' as [n|]; [|done].
  by rewrite (progress_valid_check n Hr).
Qed.

Lemma updateProject_rejects db id p target progress' :
  projects db !! id = Some p →
  target ∈ status_enum →
  progress_valid progress' →
  target ∉ entry table (status p) →
  updateProject table userId id (Some target) progress' db
  = (inl (invalid_transition (status p) target), db).
Proof.
  intros Hp He Hr Hin. apply includes_not_entry in Hin.
  unfold updateProject. run_handler.
  rewrite Hp, Hin, (enum_truthy _ He).
  destruct progress' as [n|]; [|done].
  by rewrite (progress_valid_check n Hr).
Qed.

(** C1. For a stored project and a (current, target) pair of statuses, the
    explicit status update ([updateProjectStatus], and [updateProject] with
    a [status] field and a progress that passes its range check) succeeds
    and stores [status = target] when [target] is in the table entry of the
    current status; otherwise it throws the 400 error whose message carries
    the current and the requested status, and the database is unchanged. *)
Theorem status_update_follows_table db id p target progress' :
  projects db !! id = Some p →
  status p ∈ status_enum →
  target ∈ status_enum →
  progress_valid progress' →
  (target ∈ entry table (status p) →
   ∃ p1 p2,
     status p1 = target ∧ status p2 = target
     ∧ updateProjectStatus table userId id (Some target) db
       = (inr (Some p1), set_projects (<[id := p1]>) db)
     ∧ updateProject table userId id (Some target) progress' db
       = (inr (Some p2), set_projects (<[id := p2]>) db))
  ∧ (target ∉ entry table (status p) →
     updateProjectStatus table userId id (Some target) db
     = (inl (ApiError 400
               ("Invalid status transition from " +:+ status p
                +:+ " to " +:+ target)), db)
     ∧ updateProject table userId id (Some target) progress' db
       = (inl (ApiError 400
                 ("Invalid status transition from " +:+ status p
                  +:+ " to " +:+ target)), db)).
Proof.
  intros Hp _ He Hr. split; intros Hin.
  - eexists _, _. split_and!;
      [| | by apply updateProjectStatus_accepts; [|apply enum_truthy|]
         | by apply updateProject_accepts ]; reflexivity.
  - split.
    + by apply updateProjectStatus_rejects; [|apply enum_truthy|].
    + by apply updateProject_rejects.
Qed.

End StateMachine.

Section Lifecycle.

Import Mongo ProjectController.

Variable userId : option ObjectId.

Implicit Types (db : Db) (id : ObjectId) (p : Project).

Lemma lpo_received_entry :
  entry validStatusTransitions "lpo_received"
  = ["work_started"; "on_hold"; "cancelled"].
Proof. by vm_compute. Qed.

Lemma lpo_received_entry_dist :
  entry validStatusTransitions_dist "lpo_received"
  = ["team_assigned"; "on_hold"; "cancelled"].
Proof. by vm_compute. Qed.

(** C2, as worded, fails on both variants of the table: the source table
    rejects [lpo_received → team_assigned], the compiled one rejects
    [lpo_received → work_started]. *)
Lemma lpo_received_four_targets_fails :
  updateProjectStatus validStatusTransitions None 2%N (Some "team_assigned")
    Sample.db
  = (inl (ApiError 400
            "Invalid status transition from lpo_received to team_assigned"),
     Sample.db)
  ∧ ¬ AsStated.lpo_received_targets validStatusTransitions
  ∧ ¬ AsStated.lpo_received_targets validStatusTransitions_dist.
Proof.
  split_and!.
  - by vm_compute.
  - intros H. specialize (H "team_assigned").
    rewrite includes_entry, lpo_received_entry in H.
    cut ("team_assigned" ∈ ["work_started"; "on_hold"; "cancelled"]).
    + apply (bool_decide_eq_false_1 _). by vm_compute.
    + apply H. repeat constructor.
  - intros H. specialize (H "work_started").
    rewrite includes_entry, lpo_received_entry_dist in H.
    cut ("work_started" ∈ ["team_assigned"; "on_hold"; "cancelled"]).
    + apply (bool_decide_eq_false_1 _). by vm_compute.
    + apply H. repeat constructor.
Qed.

(** C2, amended. From [lpo_received] the status-transition check of the
    TypeScript source accepts exactly {work_started, on_hold, cancelled},
    and the check of the compiled controller, where a second
    [lpo_received] key overrides the first, accepts exactly
    {team_assigned, on_hold, cancelled}. *)
Theorem lpo_received_targets_by_variant :
  (∀ target : string,
     includes validStatusTransitions "lpo_received" target = true
     ↔ target ∈ ["work_started"; "on_hold"; "cancelled"])
  ∧ (∀ target : string,
       includes validStatusTransitions_dist "lpo_received" target = true
       ↔ target ∈ ["team_assigned"; "on_hold"; "cancelled"]).
Proof.
  split; intros target.
  - by rewrite includes_entry, lpo_received_entry.
  - by rewrite includes_entry, lpo_received_entry_dist.
Qed.

(** C7. Deleting a stored project whose status is not [draft] throws the
    400 error "Cannot delete project that has already started" and leaves
    the project stored; deleting a [draft] project succeeds and removes
    it. *)
Theorem delete_only_draft db id p :
  projects db !! id = Some p →
  (status p ≠ "draft" →
   deleteProject id db
   = (inl (ApiError 400 "Cannot delete project that has already started"),
      db)
   ∧ projects (deleteProject id db).2 !! id = Some p)
  ∧ (status p = "draft" →
     deleteProject id db = (inr tt, set_projects (delete id) db)
     ∧ projects (deleteProject id db).2 !! id = None).
Proof.
  intros Hp. unfold deleteProject. run_handler. rewrite Hp.
  destruct (String.eqb_spec (status p) "draft") as [E|E]; cbn.
  - split; [done|]. intros _. split; [done|]. apply lookup_delete_eq.
  - split; [|done]. by intros _.
Qed.

Lemma save_then_update id (q : Project) u db :
  (save id q;; findByIdAndUpdate id u) db
  = (inr (Some (apply_update u q)),
     set_projects (<[id := apply_update u q]>) db).
Proof.
  run_handler. rewrite lookup_alter_eq, lookup_insert_eq. cbn.
  do 3 f_equal. apply map_eq. intros j.
  destruct (decide (id = j)) as [->|Hne].
  - by rewrite lookup_alter_eq, !lookup_insert_eq.
  - by rewrite lookup_alter_ne, !lookup_insert_ne.
Qed.

(** What [updateProjectProgress] leaves behind for a stored project and a
    progress that passes the range check. *)
Lemma updateProjectProgress_run db id p (n : Z) :
  projects db !! id = Some p →
  0 ≤ n ≤ 100 →
  let q := auto_advance p in
  let u :=
    {| set_status :=
         if (n =? 100) && negb (String.eqb (status q) "work_completed")
         then Some "work_completed" else None;
       set_progress := Some n; set_updatedBy := userId |} in
  updateProjectProgress userId id (Some n) db
  = (inr (Some (apply_update u q)),
     set_projects (<[id := apply_update u q]>) db).
Proof.
  intros Hp Hn q u. rewrite <- save_then_update.
  unfold updateProjectProgress. rewrite (progress_valid_check n Hn).
  unfold mbind at 1, handler_bind at 1, bind at 1, findById, read.
  by rewrite Hp.
Qed.

(** C5. A progress update to exactly 100 on a stored project whose status
    is not [work_completed] stores the status [work_completed], whatever
    the current status and without any look-up in the transition table;
    on a project that is already [work_completed] the status stays
    [work_completed]. *)
Theorem progress_100_completes db id p :
  projects db !! id = Some p →
  ∃ p',
    updateProjectProgress userId id (Some 100) db
    = (inr (Some p'), set_projects (<[id := p']>) db)
    ∧ status p' = "work_completed" ∧ progress p' = 100.
Proof.
  intros Hp. eexists. split; [by apply updateProjectProgress_run|].
  split; [|done]. cbn.
  by destruct (String.eqb_spec (status (auto_advance p)) "work_completed").
Qed.

(** C6. The code diverges from the specification: the automatic
    transitions test [project.progress], the progress stored before the
    update, where the specification and the comment above them ("Update
    project status based on progress") speak of the submitted value.
    Project 1 is in [work_started] with stored progress 0; it keeps the
    status [work_started] when the progress 50 is submitted, and the same
    request sent a second time, now that 50 is stored, moves it to
    [in_progress].  So the statement as worded does not hold of the
    handler. *)
Theorem progress_auto_advance_fails :
  let request := updateProjectProgress None 1%N (Some 50) in
  projects Sample.db !! 1%N
  = Some (mkProject "work_started" 0 None [10%N; 11%N] (Some 12%N))
  ∧ stored_status 1%N (request Sample.db) = Some "work_started"
  ∧ stored_status 1%N (request (request Sample.db).2) = Some "in_progress"
  ∧ ¬ AsStated.progress_auto_advance.
Proof.
  intros request.
  assert (stored_status 1%N (request Sample.db) = Some "work_started")
    as Hrun by by vm_compute.
  split_and!; [by vm_compute | done | by vm_compute |]. intros H.
  destruct (H None Sample.db 1%N
              (mkProject "work_started" 0 None [10%N; 11%N] (Some 12%N)) 50)
    as [_ H2]; [by vm_compute | lia |].
  unfold request in Hrun. rewrite Hrun in H2.
  by specialize (H2 eq_refl ltac:(lia)).
Qed.

Lemma auto_advance_team_assigned p :
  status p = "team_assigned" → 0 ≤ progress p →
  status (auto_advance p)
  = if 0 <? progress p then "in_progress" else "work_started".
Proof.
  intros Hs Hp. unfold auto_advance. rewrite Hs. cbn.
  assert ((0 <=? progress p) = true) as -> by lia. cbn.
  by destruct (0 <? progress p).
Qed.

Lemma auto_advance_work_started p :
  status p = "work_started" →
  status (auto_advance p)
  = if 0 <? progress p then "in_progress" else "work_started".
Proof.
  intros Hs. unfold auto_advance. rewrite Hs. cbn.
  rewrite andb_false_r, Hs. cbn. rewrite andb_true_r.
  by destruct (0 <? progress p).
Qed.

Lemma stored_after_progress db id p (n : Z) :
  projects db !! id = Some p →
  0 ≤ n ≤ 100 → n ≠ 100 →
  stored_status id (updateProjectProgress userId id (Some n) db)
  = Some (status (auto_advance p)).
Proof.
  intros Hp Hn H100. rewrite (updateProjectProgress_run _ _ _ _ Hp Hn).
  unfold stored_status, set_projects. cbn. rewrite lookup_insert_eq. cbn.
  by assert ((n =? 100) = false) as -> by lia.
Qed.

(** What the handler does instead.  During a progress update whose
    submitted progress is valid and is not 100, the automatic transitions
    are decided by the progress stored before the update, not by the
    submitted value: a project in
    [team_assigned] ends in [work_started] when its stored progress is 0
    and moves on to [in_progress] when its stored progress is positive; a
    project in [work_started] ends in [in_progress] when its stored
    progress is positive and keeps [work_started] otherwise. The handler
    takes no transition table. *)
Theorem progress_auto_advance_on_stored db id p (n : Z) :
  projects db !! id = Some p →
  0 ≤ n ≤ 100 → n ≠ 100 →
  let after :=
    stored_status id (updateProjectProgress userId id (Some n) db) in
  (status p = "team_assigned" → progress p = 0 →
   after = Some "work_started")
  ∧ (status p = "team_assigned" → 0 < progress p →
     after = Some "in_progress")
  ∧ (status p = "work_started" → 0 < progress p →
     after = Some "in_progress")
  ∧ (status p = "work_started" → progress p ≤ 0 →
     after = Some "work_started").
Proof.
  intros Hp Hn H100 after. subst after.
  rewrite (stored_after_progress _ _ _ _ Hp Hn H100).
  split_and!; intros Hs Hq.
  - rewrite auto_advance_team_assigned by (done || lia).
    by assert ((0 <? progress p) = false) as -> by lia.
  - rewrite auto_advance_team_assigned by (done || lia).
    by assert ((0 <? progress p) = true) as -> by lia.
  - rewrite auto_advance_work_started by done.
    by assert ((0 <? progress p) = true) as -> by lia.
  - rewrite auto_advance_work_started by done.
    by assert ((0 <? progress p) = false) as -> by lia.
Qed.

(** The automatic transitions are outside the table: the handler moves a
    [team_assigned] project with positive stored progress to
    [in_progress], and a [draft] project to [work_completed], although the
    table allows neither move. *)
Lemma auto_transitions_outside_table :
  includes validStatusTransitions "team_assigned" "in_progress" = false
  ∧ stored_status 4%N (updateProjectProgress None 4%N (Some 40) Sample.db)
    = Some "in_progress"
  ∧ includes validStatusTransitions "draft" "work_completed" = false
  ∧ stored_status 3%N (updateProjectProgress None 3%N (Some 100) Sample.db)
    = Some "work_completed".
Proof. by vm_compute. Qed.

End Lifecycle.

(** ** Team assignment *)

Section TeamAssignment.

Import Mongo ProjectController.

Variable userId : option ObjectId.

Implicit Types (db : Db) (id : ObjectId) (p : Project).



End TeamAssignment.

(** ** Labor aggregation *)

(** ** Calendar dates

    [$dateToString] tells two instants of the years 0000 to 9999 apart
    exactly when they fall on different UTC days. *)

Ltac euclid := Z.to_euclidean_division_equations; lia.

Section CalendarDates.

Import ExpenseController Calendar.

(** Year of the era (counted from March), month and day of the month of a
    day of a 400-year era, as [dateToString] computes them. *)
Let era_date (doe : Z) : Z * Z * Z :=
  let yoe := (doe - doe / 1460 + doe / 36524 - doe / 146096) / 365 in
  let doy := doe - (365 * yoe + yoe / 4 - yoe / 100) in
  let mp := (5 * doy + 2) / 153 in
  let d := doy - (153 * mp + 2) / 5 + 1 in
  let m := if mp <? 10 then mp + 3 else mp - 9 in
  (yoe + (if m <=? 2 then 1 else 0), m, d).

Lemma year_of_era_bounds (doe yoe doy : Z) :
  0 ≤ doe < 146097 →
  yoe = (doe - doe / 1460 + doe / 36524 - doe / 146096) / 365 →
  doy = doe - (365 * yoe + yoe / 4 - yoe / 100) →
  0 ≤ yoe ≤ 399 ∧ 0 ≤ doy ≤ 365.
Proof. intros ? -> ->. euclid. Qed.

Lemma month_bounds (doy mp : Z) :
  0 ≤ doy ≤ 365 → mp = (5 * doy + 2) / 153 →
  0 ≤ mp ≤ 11 ∧ 1 ≤ doy - (153 * mp + 2) / 5 + 1 ≤ 31.
Proof. intros ? ->. euclid. Qed.

Lemma year_end (doe yoe doy mp : Z) :
  0 ≤ yoe ≤ 399 → 0 ≤ doy ≤ 365 →
  doy = doe - (365 * yoe + yoe / 4 - yoe / 100) →
  mp = (5 * doy + 2) / 153 →
  (doe < 146037 → yoe < 399 ∨ mp < 10)
  ∧ (146037 ≤ doe → yoe = 399 ∧ 10 ≤ mp).
Proof. intros ? ? -> ->. euclid. Qed.

Lemma era_date_bounds (doe : Z) :
  0 ≤ doe < 146097 →
  ∃ y m d,
    era_date doe = (y, m, d)
    ∧ 0 ≤ y ≤ 400 ∧ 1 ≤ m ≤ 12 ∧ 1 ≤ d ≤ 31
    ∧ (doe < 146037 → y ≤ 399) ∧ (146037 ≤ doe → y = 400)
    ∧ ∃ yoe mp,
        0 ≤ yoe ≤ 399 ∧ 0 ≤ mp ≤ 11
        ∧ y = yoe + (if m <=? 2 then 1 else 0)
        ∧ m = (if mp <? 10 then mp + 3 else mp - 9)
        ∧ doe = 365 * yoe + yoe / 4 - yoe / 100 + (153 * mp + 2) / 5 + d - 1.
Proof.
  intros Hdoe. unfold era_date.
  remember ((doe - doe / 1460 + doe / 36524 - doe / 146096) / 365) as yoe
    eqn:Eyoe.
  remember (doe - (365 * yoe + yoe / 4 - yoe / 100)) as doy eqn:Edoy.
  remember ((5 * doy + 2) / 153) as mp eqn:Emp.
  destruct (year_of_era_bounds doe yoe doy Hdoe Eyoe Edoy) as [Hyoe Hdoy].
  destruct (month_bounds doy mp Hdoy Emp) as [Hmp Hd].
  destruct (year_end doe yoe doy mp Hyoe Hdoy Edoy Emp) as [Hlow Hhigh].
  eexists _, _, _. split; [reflexivity|].
  remember ((153 * mp + 2) / 5) as before eqn:Ebefore.
  clear Eyoe Emp.
  destruct (Z.ltb_spec mp 10) as [Hlt|Hge]; cbv iota.
  - assert ((mp + 3 <=? 2) = false) as -> by lia.
    split_and!; try lia. exists yoe, mp.
    assert ((mp <? 10) = true) as -> by lia.
    split_and!; lia.
  - assert ((mp - 9 <=? 2) = true) as -> by lia.
    split_and!; try lia. exists yoe, mp.
    assert ((mp <? 10) = false) as -> by lia.
    split_and!; lia.
Qed.

Lemma append_inj (s s' t t' : string) :
  String.length s = String.length s' →
  s +:+ t = s' +:+ t' → s = s' ∧ t = t'.
Proof.
  revert s'. induction s as [|c s IH]; intros [|c' s']; simpl; try done.
  intros [= Hlen] [= -> H]. destruct (IH _ Hlen H) as [-> ->]. done.
Qed.

Lemma append_length (s t : string) :
  String.length (s +:+ t) = (String.length s + String.length t)%nat.
Proof. induction s as [|c s IH]; simpl; [done|by rewrite IH]. Qed.

Lemma pad_length (w : nat) (n : Z) : String.length (JS.pad w n) = w.
Proof.
  revert n. induction w as [|w IH]; intros n; [done|].
  cbn [JS.pad]. rewrite append_length, IH. simpl. lia.
Qed.

Lemma digit_inj (a b : Z) :
  0 ≤ a < 10 → 0 ≤ b < 10 → JS.digit a = JS.digit b → a = b.
Proof.
  intros Ha Hb [= H]. apply (f_equal Ascii.nat_of_ascii) in H.
  rewrite !Ascii.nat_ascii_embedding in H by lia. lia.
Qed.

(** Numbers below [10 ^ width] are told apart by their padded digits. *)
Lemma pad_inj (w : nat) (a b : Z) :
  0 ≤ a < 10 ^ Z.of_nat w → 0 ≤ b < 10 ^ Z.of_nat w →
  JS.pad w a = JS.pad w b → a = b.
Proof.
  revert a b. induction w as [|w IH]; intros a b Ha Hb.
  { change (10 ^ Z.of_nat 0) with 1 in *. lia. }
  rewrite Nat2Z.inj_succ, Z.pow_succ_r in Ha, Hb by lia.
  cbn [JS.pad]. intros H.
  apply append_inj in H as [Hhigh Hlow]; [|by rewrite !pad_length].
  apply IH in Hhigh; [|euclid..].
  apply digit_inj in Hlow; [|euclid..].
  euclid.
Qed.

Lemma era_date_inj (doe doe' era era' : Z) (y m d y' m' d' : Z) :
  0 ≤ doe < 146097 → 0 ≤ doe' < 146097 →
  era_date doe = (y, m, d) → era_date doe' = (y', m', d') →
  y + era * 400 = y' + era' * 400 → m = m' → d = d' →
  era * 146097 + doe = era' * 146097 + doe'.
Proof.
  intros Hdoe Hdoe' E E' Hy Hm Hd.
  destruct (era_date_bounds doe Hdoe)
    as (y0 & m0 & d0 & E0 & _ & _ & _ & _ & _
        & yoe & mp & ? & ? & Ey & Em & Edoe).
  destruct (era_date_bounds doe' Hdoe')
    as (y1 & m1 & d1 & E1 & _ & _ & _ & _ & _
        & yoe' & mp' & ? & ? & Ey' & Em' & Edoe').
  rewrite E in E0. rewrite E' in E1. simplify_eq.
  assert (mp = mp') as <-.
  { destruct (Z.ltb_spec mp 10), (Z.ltb_spec mp' 10); lia. }
  assert (yoe = yoe' ∧ era = era') as [<- <-] by lia.
  lia.
Qed.

(** The date that [dateToString] prints, by era and day of the era; the
    year has four digits on the instants of the years 0000 to 9999. *)
Lemma dateToString_parts (ms : Z) :
  ∃ era doe y m d,
    utc_day ms + 719468 = era * 146097 + doe
    ∧ 0 ≤ doe < 146097
    ∧ era_date doe = (y, m, d)
    ∧ dateToString ms
      = JS.pad 4 (y + era * 400) +:+ "-" +:+ JS.pad 2 m +:+ "-" +:+ JS.pad 2 d
    ∧ 1 ≤ m ≤ 12 ∧ 1 ≤ d ≤ 31
    ∧ (in_four_digit_years ms → 0 ≤ y + era * 400 ≤ 9999).
Proof.
  unfold utc_day, in_four_digit_years.
  remember (ms / 86400000 + 719468) as z eqn:Ez.
  remember (z / 146097) as era eqn:Eera.
  remember (z - era * 146097) as doe eqn:Edoe.
  assert (0 ≤ doe < 146097) as Hdoe by (subst doe era; euclid).
  destruct (era_date_bounds doe Hdoe)
    as (y & m & d & E & Hy & Hm & Hd & Hlow & Hhigh & _).
  exists era, doe, y, m, d. split_and!; try lia; try done.
  - unfold dateToString. rewrite <- Ez. cbv zeta. rewrite <- Eera, <- Edoe.
    unfold era_date in E. injection E as <- <- <-.
    do 2 f_equal. lia.
  - intros Hms. assert (-60 ≤ z < 3652365) as Hz by (subst z; euclid).
    assert (-1 ≤ era ≤ 24) as Hera by (subst era; euclid).
    assert (era = -1 → 146037 ≤ doe) by lia.
    assert (era = 24 → doe < 146037) by lia.
    lia.
Qed.

(** The formatted dates of two instants of the years 0000 to 9999 are equal
    exactly when the instants fall on the same UTC day. *)
Lemma dateToString_utc_day (a b : Z) :
  in_four_digit_years a → in_four_digit_years b →
  dateToString a = dateToString b ↔ utc_day a = utc_day b.
Proof.
  intros Ha Hb. split; [|unfold dateToString, utc_day; by intros ->].
  destruct (dateToString_parts a)
    as (era & doe & y & m & d & Eday & Hdoe & E & -> & Hm & Hd & Hy).
  destruct (dateToString_parts b)
    as (era' & doe' & y' & m' & d' & Eday' & Hdoe' & E' & -> & Hm' & Hd' & Hy').
  specialize (Hy Ha). specialize (Hy' Hb). intros H.
  apply append_inj in H as [Hyear H]; [|by rewrite !pad_length].
  apply append_inj in H as [_ H]; [|done].
  apply append_inj in H as [Hmonth H]; [|by rewrite !pad_length].
  apply append_inj in H as [_ Hdom]; [|done].
  apply pad_inj in Hyear; [|change (10 ^ Z.of_nat 4) with 10000; lia..].
  apply pad_inj in Hmonth; [|change (10 ^ Z.of_nat 2) with 100; lia..].
  apply pad_inj in Hdom; [|change (10 ^ Z.of_nat 2) with 100; lia..].
  pose proof (era_date_inj doe doe' era era' _ _ _ _ _ _
                Hdoe Hdoe' E E' Hyear Hmonth Hdom).
  lia.
Qed.

End CalendarDates.

Section Labor.

Import Mongo ExpenseController Calendar LaborSpec.

Implicit Types (db : Db) (p : Project) (coll : list Attendance).

Lemma or_zero_default (x : option Z) : JS.or_zero x = default 0 x.
Proof.
  destruct x as [v|]; [|done]. cbn. by destruct (Z.eqb_spec v 0).
Qed.

(** The counting loop adds, for each user, the number of records of that
    user to what the map held before. *)
Lemma count_day_fold (m : gmap ObjectId Z) (records : list Attendance)
    (i : ObjectId) :
  default 0 (foldl count_day m records !! i)
  = default 0 (m !! i)
    + Z.of_nat (length (filter (λ r, a_user r = i) records)).
Proof.
  revert m. induction records as [|r records IH]; intros m; cbn [foldl].
  - cbn. lia.
  - rewrite IH. unfold count_day. rewrite or_zero_default.
    rewrite filter_cons. destruct (decide (a_user r = i)) as [->|Hne].
    + rewrite lookup_insert_eq. cbn. lia.
    + rewrite lookup_insert_ne by done. lia.
Qed.

Lemma workerDaysMap_counts (projectId : ObjectId) (ids : list ObjectId)
    coll (i : ObjectId) :
  i ∈ ids →
  JS.or_zero
    (foldl count_day ∅
       (filter (λ r, a_project r = Some projectId ∧ a_present r = true
                     ∧ a_user r ∈ ids) coll) !! i)
  = worker_days projectId i coll.
Proof.
  intros Hi. rewrite or_zero_default, count_day_fold, lookup_empty.
  unfold worker_days. rewrite list_filter_filter. cbn [default].
  rewrite Z.add_0_l. do 2 f_equal. apply list_filter_iff.
  intros r. split; [tauto|]. intros (? & ? & Hu). rewrite Hu. tauto.
Qed.

Lemma group_stage_distinct (docs : list Attendance) :
  JS.or_zero (head (count_stage (group_stage docs)))
  = Z.of_nat (size (list_to_set (C := gset string)
                      (dateToString ∘ a_date <$> docs))).
Proof.
  rewrite or_zero_default. unfold group_stage.
  assert (list_to_set (C := gset string) (dateToString ∘ a_date <$> docs)
          = list_to_set (remove_dups (dateToString ∘ a_date <$> docs)))
    as ->.
  { apply set_eq. intros x.
    by rewrite !elem_of_list_to_set, elem_of_remove_dups. }
  rewrite size_list_to_set by apply NoDup_remove_dups.
  unfold count_stage. by destruct (remove_dups _).
Qed.

Lemma populate_fst (us : gmap ObjectId User) (ids : list ObjectId)
    (w : ObjectId * User) :
  w ∈ populate us ids → w.1 ∈ (populate us ids).*1.
Proof. apply list_elem_of_fmap_2. Qed.

(** The aggregator against the specification's algorithm: on a stored
    project it returns, leaving the collections as they were, the
    per-worker records, the driver record and the sum the specification
    describes. *)
Lemma calculateLaborDetails_found db (projectId : ObjectId) p :
  projects db !! projectId = Some p →
  ∃ details db',
    calculateLaborDetails projectId db = (inr details, db')
    ∧ (projects db' = projects db ∧ users db' = users db
       ∧ attendance db' = attendance db)
    ∧ workers details
      = (λ w, paid (worker_days projectId w.1 (attendance db)) w)
          <$> populate (users db) (assignedWorkers p)
    ∧ match populate_one (users db) (assignedDriver p) with
      | Some d =>
        driver details = paid (distinct_dates projectId (attendance db)) d
      | None =>
        user (driver details) = next_oid db
        ∧ figures (driver details) = (0, 0, 0)
      end
    ∧ totalLaborCost details
      = foldl (λ sum w, sum + totalSalary w) 0 (workers details)
        + totalSalary (driver details).
Proof.
  intros Hp. unfold calculateLaborDetails. run_handler. rewrite Hp.
  assert (∀ w, w ∈ populate (users db) (assignedWorkers p) →
    {| user := w.1; l_firstName := firstName w.2;
       l_lastName := lastName w.2; l_profileImage := profileImage w.2;
       daysPresent :=
         JS.or_zero
           (foldl count_day ∅
              (filter (λ r, a_project r = Some projectId
                            ∧ a_present r = true
                            ∧ a_user r ∈ (populate (users db)
                                            (assignedWorkers p)).*1)
                      (attendance db)) !! w.1);
       dailySalary := JS.or_zero (salary w.2);
       totalSalary :=
         JS.or_zero
           (foldl count_day ∅
              (filter (λ r, a_project r = Some projectId
                            ∧ a_present r = true
                            ∧ a_user r ∈ (populate (users db)
                                            (assignedWorkers p)).*1)
                      (attendance db)) !! w.1)
         * JS.or_zero (salary w.2) |}
    = paid (worker_days projectId w.1 (attendance db)) w) as Hworkers.
  { intros w Hw. unfold paid.
    by rewrite (workerDaysMap_counts _ _ _ _ (populate_fst _ _ _ Hw)),
      or_zero_default. }
  apply Forall_forall, Forall_fmap_ext in Hworkers.
  destruct (populate_one (users db) (assignedDriver p)) as [d|];
    cbn [projects users attendance next_oid];
    eexists _, _; (split; [reflexivity|]);
    cbn [workers driver totalLaborCost]; rewrite Hworkers;
    (split_and!; try done).
  unfold paid, distinct_dates, attended_dates.
  by rewrite group_stage_distinct, or_zero_default.
Qed.


(** Two ways of telling the elements of a list apart that agree on every
    pair of elements give as many distinct images. *)
Lemma size_images {A} `{Countable B, Countable C}
    (f : A → B) (g : A → C) (l : list A) :
  (∀ x y, x ∈ l → y ∈ l → f x = f y ↔ g x = g y) →
  size (list_to_set (C := gset B) (f <$> l))
  = size (list_to_set (C := gset C) (g <$> l)).
Proof.
  induction l as [|x l IH]; intros Hfg; [done|].
  assert (size (list_to_set (C := gset B) (f <$> l))
          = size (list_to_set (C := gset C) (g <$> l))) as IH'.
  { apply IH. intros y z Hy Hz. apply Hfg; by right. }
  assert (f x ∈ list_to_set (C := gset B) (f <$> l)
          ↔ g x ∈ list_to_set (C := gset C) (g <$> l)) as Hin.
  { rewrite !elem_of_list_to_set, !list_elem_of_fmap.
    split; intros (y & E & Hy); exists y; (split; [|done]);
      apply (Hfg x y); (done || by left || by right). }
  cbn [fmap list_fmap]. rewrite !list_to_set_cons.
  destruct (decide (f x ∈ list_to_set (C := gset B) (f <$> l))) as [Hf|Hf].
  - assert ({[f x]} ∪ list_to_set (C := gset B) (f <$> l)
            = list_to_set (f <$> l)) as ->.
    { apply set_eq. intros b. rewrite elem_of_union, elem_of_singleton.
      split; [by intros [->|?]|by right]. }
    assert ({[g x]} ∪ list_to_set (C := gset C) (g <$> l)
            = list_to_set (g <$> l)) as ->.
    { apply set_eq. intros c. rewrite elem_of_union, elem_of_singleton.
      split; [|by right]. intros [->|?]; [by apply Hin|done]. }
    done.
  - rewrite !size_union, !size_singleton, IH'; [done|..];
      apply disjoint_singleton_l; [by rewrite <- Hin|done].
Qed.

(** When the attended instants are of the years 0000 to 9999, the dates
    that [$dateToString] distinguishes are the calendar days. *)
Lemma distinct_dates_days (projectId : ObjectId) coll :
  dates_in_range projectId coll →
  distinct_dates projectId coll = distinct_days projectId coll.
Proof.
  intros Hrange. unfold distinct_dates, distinct_days, attended_dates,
    attended_days. f_equal. apply size_images.
  unfold dates_in_range in Hrange. rewrite Forall_forall in Hrange.
  intros x y Hx Hy. cbn. apply dateToString_utc_day; by apply Hrange.
Qed.

Lemma attended_date_day (projectId : ObjectId) (ms : Z) coll :
  in_four_digit_years ms →
  dates_in_range projectId coll →
  dateToString ms ∈ attended_dates projectId coll
  ↔ utc_day ms ∈ attended_days projectId coll.
Proof.
  intros Hms Hrange. unfold dates_in_range in Hrange.
  rewrite Forall_forall in Hrange. unfold attended_dates, attended_days.
  rewrite !elem_of_list_to_set, !list_elem_of_fmap.
  split; intros (r & E & Hr); exists r; (split; [|done]); cbn in *;
    apply dateToString_utc_day; auto.
Qed.

(** The calendar days depend on the project, the date and the presence
    flag of the records only, not on their users. *)
Lemma distinct_days_ignores_users (projectId : ObjectId) coll coll' :
  (λ r, (a_project r, a_date r, a_present r)) <$> coll
  = (λ r, (a_project r, a_date r, a_present r)) <$> coll' →
  distinct_days projectId coll = distinct_days projectId coll'.
Proof.
  intros Heq. unfold distinct_days, attended_days. do 3 f_equal.
  revert coll' Heq. induction coll as [|r coll IH]; intros [|r' coll'] Heq;
    try done.
  injection Heq as Hp Hd Hb Htl. rewrite !filter_cons.
  rewrite <- Hp, <- Hb.
  destruct (decide _); [|by apply IH].
  cbn. rewrite Hd. f_equal. by apply IH.
Qed.

(** C4. For a stored project whose [present = true] attendance records are
    dated within the years 0000 to 9999 (where [$dateToString] is defined),
    the aggregator returns a breakdown in which, when the project has a
    driver, the driver's [daysPresent] is the number of distinct UTC
    calendar days among the [present = true] attendance records of the
    project, a number that does not depend on the users of the records (so
    neither on who attended nor on the driver's own attendance), and the
    driver's [totalSalary] is that number times the driver's daily salary,
    0 when the salary is unset; without a driver the driver's [totalSalary]
    is 0. *)
Theorem driver_paid_per_attended_date db (projectId : ObjectId) p :
  projects db !! projectId = Some p →
  dates_in_range projectId (attendance db) →
  ∃ details db',
    calculateLaborDetails projectId db = (inr details, db')
    ∧ (∀ d u,
         assignedDriver p = Some d → users db !! d = Some u →
         daysPresent (driver details)
         = distinct_days projectId (attendance db)
         ∧ dailySalary (driver details) = default 0 (salary u)
         ∧ totalSalary (driver details)
           = distinct_days projectId (attendance db)
             * default 0 (salary u))
    ∧ (assignedDriver p = None → totalSalary (driver details) = 0)
    ∧ (∀ coll',
         (λ r, (a_project r, a_date r, a_present r)) <$> coll'
         = (λ r, (a_project r, a_date r, a_present r)) <$> attendance db →
         distinct_days projectId coll'
         = distinct_days projectId (attendance db)).
Proof.
  intros Hp Hrange.
  destruct (calculateLaborDetails_found _ _ _ Hp)
    as (details & db' & Hrun & _ & _ & Hdriver & _).
  exists details, db'. split_and!; [done| | |].
  - intros d u Hd Hu. rewrite Hd in Hdriver. cbn in Hdriver.
    rewrite Hu in Hdriver. cbn in Hdriver.
    rewrite <- (distinct_dates_days _ _ Hrange). by rewrite Hdriver.
  - intros Hd. rewrite Hd in Hdriver. cbn in Hdriver.
    destruct Hdriver as [_ Hfig]. by injection Hfig.
  - intros coll'. apply distinct_days_ignores_users.
Qed.

(** The example of the specification: attendance on 2024-01-01 and
    2024-01-02, by two different users, and a driver at 100 a day who has
    no attendance record, give the driver a total of 200. *)
Lemma driver_two_dates_example :
  dateToString Sample.day1 = "2024-01-01"
  ∧ dateToString Sample.day2 = "2024-01-02"
  ∧ sum_map id (λ d, (daysPresent (driver d), totalSalary (driver d)))
      (calculateLaborDetails 4%N Sample.db).1
    = inr (2, 200).
Proof. by vm_compute. Qed.

(** The example scenario of the specification: A has 2 days and 100, B has
    1 day and 50, the driver 2 dates and 100, 250 in all. *)
Lemma labor_scenario_example :
  sum_map id totals (calculateLaborDetails 1%N Sample.db).1
  = inr ([(2, 50, 100); (1, 50, 50)], (2, 50, 100), 250).
Proof. by vm_compute. Qed.

Lemma reduce_sum (ws : list Labor) (a : Z) :
  foldl (λ sum w, sum + totalSalary w) a ws = a + sum_salaries ws.
Proof.
  unfold sum_salaries. revert a.
  induction ws as [|w ws IH]; intros a; cbn; [lia|]. rewrite IH. lia.
Qed.

Lemma calculateLaborDetails_returns db (projectId : ObjectId) details db' :
  calculateLaborDetails projectId db = (inr details, db') →
  is_Some (projects db !! projectId).
Proof.
  destruct (projects db !! projectId) as [p|] eqn:Hp; [by eexists|].
  unfold calculateLaborDetails. run_handler. by rewrite Hp.
Qed.

(** C8. Every breakdown the aggregator returns satisfies
    [totalSalary = daysPresent * dailySalary] for each worker record and
    for the driver record, and its [totalLaborCost] is the sum of the
    workers' [totalSalary] plus the driver's. *)
Theorem labor_details_invariant db (projectId : ObjectId) details db' :
  calculateLaborDetails projectId db = (inr details, db') →
  Forall (λ w, totalSalary w = daysPresent w * dailySalary w)
         (workers details)
  ∧ totalSalary (driver details)
    = daysPresent (driver details) * dailySalary (driver details)
  ∧ totalLaborCost details
    = sum_salaries (workers details) + totalSalary (driver details).
Proof.
  intros Hrun.
  destruct (calculateLaborDetails_returns _ _ _ _ Hrun) as [p Hp].
  destruct (calculateLaborDetails_found _ _ _ Hp)
    as (details' & db'' & Hrun' & _ & Hws & Hdriver & Hsum).
  rewrite Hrun in Hrun'. injection Hrun' as <- <-. split_and!.
  - rewrite Hws. apply Forall_fmap, Forall_forall. by intros w _.
  - destruct (populate_one _ _) as [d|].
    + by rewrite Hdriver.
    + destruct Hdriver as [_ Hfig]. injection Hfig as -> -> ->. lia.
  - rewrite Hsum, reduce_sum. lia.
Qed.

(** The figures of the breakdown are a function of the projects, the
    users and the set of attendance records: neither the order of the
    records nor the state of the id generator matters. *)
Lemma labor_totals_stable db1 db2 (projectId : ObjectId) :
  projects db1 = projects db2 →
  users db1 = users db2 →
  attendance db1 ≡ₚ attendance db2 →
  match (calculateLaborDetails projectId db1).1,
        (calculateLaborDetails projectId db2).1 with
  | inr d1, inr d2 => totals d1 = totals d2
  | inl e1, inl e2 => e1 = e2
  | _, _ => False
  end.
Proof.
  intros Hprojects Husers Hperm.
  destruct (projects db1 !! projectId) as [p|] eqn:Hp.
  - destruct (calculateLaborDetails_found _ _ _ Hp)
      as (d1 & ? & -> & _ & Hws1 & Hdr1 & Hsum1).
    rewrite Hprojects in Hp.
    destruct (calculateLaborDetails_found _ _ _ Hp)
      as (d2 & ? & -> & _ & Hws2 & Hdr2 & Hsum2).
    cbn [fst]. rewrite <- Husers in Hws2, Hdr2.
    assert (∀ i, worker_days projectId i (attendance db1)
                 = worker_days projectId i (attendance db2)) as Hdays.
    { intros i. unfold worker_days. by rewrite Hperm. }
    assert (distinct_dates projectId (attendance db1)
            = distinct_dates projectId (attendance db2)) as Hdates.
    { unfold distinct_dates, attended_dates. by rewrite Hperm. }
    assert (workers d1 = workers d2) as Hws.
    { rewrite Hws1, Hws2. apply Forall_fmap_ext, Forall_forall.
      intros w _. by rewrite Hdays. }
    assert (figures (driver d1) = figures (driver d2)) as Hdr.
    { destruct (populate_one _ _) as [d|].
      - by rewrite Hdr1, Hdr2, Hdates.
      - destruct Hdr1 as [_ ->]. by destruct Hdr2 as [_ ->]. }
    unfold totals. rewrite Hsum1, Hsum2, Hws, Hdr. do 2 f_equal.
    by injection Hdr.
  - unfold calculateLaborDetails. run_handler.
    by rewrite <- Hprojects, Hp.
Qed.

Lemma calculateLaborDetails_reads db (projectId : ObjectId) :
  let db' := (calculateLaborDetails projectId db).2 in
  projects db' = projects db ∧ users db' = users db
  ∧ attendance db' = attendance db.
Proof.
  destruct (projects db !! projectId) as [p|] eqn:Hp.
  - by destruct (calculateLaborDetails_found _ _ _ Hp)
      as (? & ? & -> & ? & _).
  - unfold calculateLaborDetails. run_handler. by rewrite Hp.
Qed.

(** C9. Two successive calls of the aggregator for the same project, the
    second on the database the first leaves behind, agree: both throw the
    same error, or both return breakdowns with the same [daysPresent],
    [dailySalary] and [totalSalary] for every worker and for the driver
    and the same [totalLaborCost]. *)
Theorem labor_totals_deterministic db (projectId : ObjectId) :
  match (calculateLaborDetails projectId db).1,
        (calculateLaborDetails projectId
           (calculateLaborDetails projectId db).2).1 with
  | inr d1, inr d2 => totals d1 = totals d2
  | inl e1, inl e2 => e1 = e2
  | _, _ => False
  end.
Proof.
  destruct (calculateLaborDetails_reads db projectId) as (Hp & Hu & Ha).
  apply labor_totals_stable; [done..|]. by rewrite Ha.
Qed.

(** The breakdowns themselves need not be equal: without a driver the
    placeholder record carries a fresh id at every call. *)
Lemma placeholder_driver_is_fresh :
  sum_map id (user ∘ driver) (calculateLaborDetails 2%N Sample.db).1
  = inr 100%N
  ∧ sum_map id (user ∘ driver)
      (calculateLaborDetails 2%N
         (calculateLaborDetails 2%N Sample.db).2).1
    = inr 101%N.
Proof. by vm_compute. Qed.

End Labor.

(** ** The theorems at work on the sample data *)

Section OnSample.

Import Mongo ProjectController ExpenseController LaborSpec.

(** The move [work_started → in_progress] of project 1 is applied, the move
    [work_started → draft] is refused. *)
Lemma status_update_follows_table_sample :
  projects Sample.db !! 1%N
  = Some (mkProject "work_started" 0 None [10%N; 11%N] (Some 12%N))
  ∧ "in_progress" ∈ entry validStatusTransitions "work_started"
  ∧ ("draft" ∉ entry validStatusTransitions "work_started")
  ∧ (∃ p1,
       status p1 = "in_progress"
       ∧ updateProjectStatus validStatusTransitions (Some 7%N) 1%N
           (Some "in_progress") Sample.db
         = (inr (Some p1), set_projects (<[1%N := p1]>) Sample.db))
  ∧ updateProjectStatus validStatusTransitions (Some 7%N) 1%N
      (Some "draft") Sample.db
    = (inl (ApiError 400
              "Invalid status transition from work_started to draft"),
       Sample.db).
Proof.
  assert (projects Sample.db !! 1%N
          = Some (mkProject "work_started" 0 None [10%N; 11%N] (Some 12%N)))
    as Hp by (vm_compute; reflexivity).
  assert ("in_progress" ∈ entry validStatusTransitions "work_started")
    as Hin by (apply (bool_decide_unpack _); vm_compute; exact I).
  assert ("draft" ∉ entry validStatusTransitions "work_started")
    as Hout by (apply (bool_decide_unpack _); vm_compute; exact I).
  split_and!; [exact Hp | exact Hin | exact Hout | |].
  - destruct (status_update_follows_table validStatusTransitions (Some 7%N)
                Sample.db 1%N _ "in_progress" None Hp) as [Hok _].
    + apply (bool_decide_unpack _); vm_compute; exact I.
    + apply (bool_decide_unpack _); vm_compute; exact I.
    + exact I.
    + destruct (Hok Hin) as (p1 & p2 & Hs & _ & Hrun & _).
      exists p1. split; [exact Hs | exact Hrun].
  - destruct (status_update_follows_table validStatusTransitions (Some 7%N)
                Sample.db 1%N _ "draft" None Hp) as [_ Hko].
    + apply (bool_decide_unpack _); vm_compute; exact I.
    + apply (bool_decide_unpack _); vm_compute; exact I.
    + exact I.
    + exact (proj1 (Hko Hout)).
Defined.

(** The draft project 3 is deleted. *)
Lemma delete_only_draft_sample :
  projects Sample.db !! 3%N = Some (mkProject "draft" 0 None [] None)
  ∧ projects (deleteProject 3%N Sample.db).2 !! 3%N = None.
Proof.
  assert (projects Sample.db !! 3%N = Some (mkProject "draft" 0 None [] None))
    as Hp by (vm_compute; reflexivity).
  split; [exact Hp|].
  exact (proj2 (proj2 (delete_only_draft Sample.db 3%N _ Hp) eq_refl)).
Defined.

(** Progress 100 completes the draft project 3. *)
Lemma progress_100_completes_sample :
  projects Sample.db !! 3%N = Some (mkProject "draft" 0 None [] None)
  ∧ ∃ p',
      updateProjectProgress (Some 7%N) 3%N (Some 100) Sample.db
      = (inr (Some p'), set_projects (<[3%N := p']>) Sample.db)
      ∧ status p' = "work_completed" ∧ progress p' = 100.
Proof.
  assert (projects Sample.db !! 3%N = Some (mkProject "draft" 0 None [] None))
    as Hp by (vm_compute; reflexivity).
  split; [exact Hp|].
  exact (progress_100_completes (Some 7%N) Sample.db 3%N _ Hp).
Defined.

(** Project 4, [team_assigned] with stored progress 30, ends in
    [in_progress]. *)
Lemma progress_auto_advance_on_stored_sample :
  projects Sample.db !! 4%N
  = Some (mkProject "team_assigned" 30 None [10%N] (Some 13%N))
  ∧ stored_status 4%N
      (updateProjectProgress (Some 7%N) 4%N (Some 40) Sample.db)
    = Some "in_progress".
Proof.
  assert (projects Sample.db !! 4%N
          = Some (mkProject "team_assigned" 30 None [10%N] (Some 13%N)))
    as Hp by (vm_compute; reflexivity).
  split; [exact Hp|].
  refine (proj1 (proj2 (progress_auto_advance_on_stored (Some 7%N)
                          Sample.db 4%N _ 40 Hp _ _)) eq_refl _);
    cbn; lia.
Defined.



(** The records of project 4 are dated 2024-01-01 and 2024-01-02, two
    calendar days, and its driver at 100 a day is paid 200 for them. *)
Lemma driver_paid_per_attended_date_sample :
  projects Sample.db !! 4%N
  = Some (mkProject "team_assigned" 30 None [10%N] (Some 13%N))
  ∧ users Sample.db !! 13%N = Some (Sample.chauffeur (Some 100))
  ∧ dates_in_range 4%N (attendance Sample.db)
  ∧ distinct_days 4%N (attendance Sample.db) = 2
  ∧ ∃ details db',
      calculateLaborDetails 4%N Sample.db = (inr details, db')
      ∧ daysPresent (driver details) = 2
      ∧ totalSalary (driver details) = 200.
Proof.
  assert (projects Sample.db !! 4%N
          = Some (mkProject "team_assigned" 30 None [10%N] (Some 13%N)))
    as Hp by (vm_compute; reflexivity).
  assert (users Sample.db !! 13%N = Some (Sample.chauffeur (Some 100)))
    as Hu by (vm_compute; reflexivity).
  assert (dates_in_range 4%N (attendance Sample.db)) as Hrange
    by (apply (bool_decide_unpack _); vm_compute; exact I).
  assert (distinct_days 4%N (attendance Sample.db) = 2) as Hdays
    by (vm_compute; reflexivity).
  split_and!; [exact Hp | exact Hu | exact Hrange | exact Hdays |].
  destruct (driver_paid_per_attended_date Sample.db 4%N _ Hp Hrange)
    as (details & db' & Hrun & Hdriver & _).
  destruct (Hdriver 13%N _ eq_refl Hu) as (Hd & _ & Htotal).
  exists details, db'. rewrite Hdays in Hd, Htotal.
  split_and!; [exact Hrun | exact Hd | exact Htotal].
Defined.

(** The breakdown of project 1 satisfies the invariant. *)
Lemma labor_details_invariant_sample :
  ∃ details db',
    calculateLaborDetails 1%N Sample.db = (inr details, db')
    ∧ Forall (λ w, totalSalary w = daysPresent w * dailySalary w)
             (workers details)
    ∧ totalSalary (driver details)
      = daysPresent (driver details) * dailySalary (driver details)
    ∧ totalLaborCost details
      = sum_salaries (workers details) + totalSalary (driver details).
Proof.
  eexists _, _. split.
  - vm_compute. reflexivity.
  - eapply (labor_details_invariant Sample.db 1%N).
    vm_compute. reflexivity.
Defined.

End OnSample.

(** * Further properties of the controllers *)

(** ** Team assignment: success criterion, repetition and round trip *)

Section TeamHandlers.

Import Mongo ProjectController Team.

Implicit Types (db : Db) (id : ObjectId) (p : Project).

Lemma valid_workers_NoDup (us : gmap ObjectId User) (ws : list ObjectId) :
  NoDup (filter (λ kv : ObjectId * User, kv.1 ∈ ws ∧ role kv.2 = "worker")
                (map_to_list us)).*1.
Proof.
  eapply sublist_NoDup; [apply (NoDup_fst_map_to_list us)|].
  apply fmap_sublist, sublist_filter.
Qed.

Lemma elem_of_valid_workers (us : gmap ObjectId User) (ws : list ObjectId)
    (w : ObjectId) :
  w ∈ (filter (λ kv : ObjectId * User, kv.1 ∈ ws ∧ role kv.2 = "worker")
              (map_to_list us)).*1
  ↔ w ∈ ws ∧ ∃ u, us !! w = Some u ∧ role u = "worker".
Proof.
  rewrite list_elem_of_fmap. split.
  - intros ([w' u] & -> & Hin). apply list_elem_of_filter in Hin.
    destruct Hin as [[Hw Hr] Hin]. apply elem_of_map_to_list in Hin.
    split; [done|]. by exists u.
  - intros (Hw & u & Hu & Hr). exists (w, u). split; [done|].
    apply list_elem_of_filter. split; [done|]. by apply elem_of_map_to_list.
Qed.

(** The comparison of the two lengths is the whole validation: it holds
    exactly for lists of distinct users with the role [worker]. *)
Lemma valid_workers_length (us : gmap ObjectId User) (ws : list ObjectId) :
  length (filter (λ kv : ObjectId * User, kv.1 ∈ ws ∧ role kv.2 = "worker")
                 (map_to_list us)).*1
  = length ws
  ↔ NoDup ws
    ∧ ∀ w, w ∈ ws → ∃ u, us !! w = Some u ∧ role u = "worker".
Proof.
  split.
  - intros Hlen.
    assert ((filter (λ kv : ObjectId * User,
                       kv.1 ∈ ws ∧ role kv.2 = "worker")
                    (map_to_list us)).*1 ≡ₚ ws) as Hperm.
    { apply submseteq_length_Permutation; [|lia].
      apply NoDup_submseteq; [apply valid_workers_NoDup|].
      intros w Hw. by apply elem_of_valid_workers in Hw as [? _]. }
    split.
    + rewrite <- Hperm. apply valid_workers_NoDup.
    + intros w Hw. rewrite <- Hperm in Hw.
      by apply elem_of_valid_workers in Hw as [_ ?].
  - intros [Hnd Hws]. apply Permutation_length, NoDup_Permutation;
      [apply valid_workers_NoDup | done |].
    intros w. rewrite elem_of_valid_workers. split; [tauto|].
    intros Hw. split; [done|]. by apply Hws.
Qed.

Lemma find_driver_role (us : gmap ObjectId User) (d : ObjectId) :
  is_Some (match us !! d with
           | Some u => if String.eqb (role u) "driver" then Some u else None
           | None => None
           end)
  ↔ ∃ u, us !! d = Some u ∧ role u = "driver".
Proof.
  destruct (us !! d) as [u|];
    [|split; [by intros [? ?] | by intros (? & ? & _)]].
  destruct (String.eqb_spec (role u) "driver") as [Hr|Hr].
  - split; [by exists u | by eexists].
  - split; [by intros [? ?] | by intros (? & [= <-] & ?)].
Qed.

(** What a successful [assignTeamAndDriver] has checked and written. *)
Lemma assignTeamAndDriver_success (userId : option ObjectId) db id workers
    driverId (r : Project) db' :
  assignTeamAndDriver userId id workers driverId db = (inr r, db') →
  ∃ p ws d,
    projects db !! id = Some p ∧ workers = Some ws ∧ driverId = Some d
    ∧ status p = "lpo_received" ∧ valid_team (users db) ws d
    ∧ r = {| status := "team_assigned"; progress := progress p;
             updatedBy := userId; assignedWorkers := ws;
             assignedDriver := Some d |}
    ∧ db' = set_projects (<[id := r]>) db.
Proof.
  unfold assignTeamAndDriver.
  destruct workers as [ws|], driverId as [d|]; try done.
  destruct (length ws =? 0)%nat eqn:Hlen0; [done|].
  unfold find_workers, find_driver. run_handler.
  destruct (projects db !! id) as [p|] eqn:Hp; [|done].
  destruct (String.eqb_spec (status p) "lpo_received") as [Hs|]; [|done].
  cbn [negb].
  destruct (Nat.eqb_spec
              (length (filter (λ kv : ObjectId * User,
                                 kv.1 ∈ ws ∧ role kv.2 = "worker")
                              (map_to_list (users db))).*1)
              (length ws)) as [Hlen|]; [|done].
  cbn [negb]. apply valid_workers_length in Hlen as [Hnd Hws].
  pose proof (find_driver_role (users db) d) as Hd.
  destruct (match users db !! d with
            | Some u => if String.eqb (role u) "driver" then Some u else None
            | None => None
            end) as [u|]; [|done].
  intros [= <- <-]. exists p, ws, d. split_and!; try done.
  split_and!; [|done|done|apply Hd; by eexists].
  intros ->. discriminate.
Qed.

Lemma assignTeamAndDriver_valid (userId : option ObjectId) db id p
    (ws : list ObjectId) (d : ObjectId) :
  projects db !! id = Some p →
  status p = "lpo_received" →
  valid_team (users db) ws d →
  ∃ r db', assignTeamAndDriver userId id (Some ws) (Some d) db = (inr r, db').
Proof.
  intros Hp Hs (Hne & Hnd & Hws & u & Hu & Hr).
  unfold assignTeamAndDriver.
  assert ((length ws =? 0)%nat = false) as -> by by destruct ws.
  unfold find_workers, find_driver. run_handler.
  rewrite Hp, Hs, String.eqb_refl. cbn [negb].
  rewrite (proj2 (valid_workers_length _ _) (conj Hnd Hws)).
  rewrite Nat.eqb_refl. cbn [negb]. rewrite Hu, Hr. by eexists _, _.
Qed.

(** X1. On a stored project [assignTeamAndDriver] succeeds exactly when the
    status is [lpo_received], the workers are a non-empty array of distinct
    users with the role [worker] (a repeated id is refused) and the driver is
    a user with the role [driver]. *)
Theorem assignTeamAndDriver_succeeds_iff (userId : option ObjectId) db id p
    workers driverId :
  projects db !! id = Some p →
  (∃ r db',
     assignTeamAndDriver userId id workers driverId db = (inr r, db'))
  ↔ status p = "lpo_received"
    ∧ ∃ ws d, workers = Some ws ∧ driverId = Some d
              ∧ valid_team (users db) ws d.
Proof.
  intros Hp. split.
  - intros (r & db' & Hrun).
    apply assignTeamAndDriver_success in Hrun
      as (p' & ws & d & Hp' & -> & -> & Hs & Hteam & _).
    rewrite Hp in Hp'. injection Hp' as <-. split; [done|]. by exists ws, d.
  - intros (Hs & ws & d & -> & -> & Hteam).
    by eapply assignTeamAndDriver_valid.
Qed.

Lemma assignTeamAndDriver_wrong_status (userId : option ObjectId) db id p
    workers driverId :
  projects db !! id = Some p →
  status p ≠ "lpo_received" →
  ∃ message,
    assignTeamAndDriver userId id workers driverId db
    = (inl (ApiError 400 message), db).
Proof.
  intros Hp Hs. unfold assignTeamAndDriver.
  destruct workers as [ws|], driverId as [d|]; try by eexists.
  destruct (length ws =? 0)%nat; [by eexists|].
  run_handler. rewrite Hp.
  destruct (String.eqb_spec (status p) "lpo_received"); [done|].
  by eexists.
Qed.

(** X2. [assignTeamAndDriver] cannot be repeated: once it has succeeded on
    a project, every further call for that project, whatever its inputs,
    throws a 400 error and changes nothing. *)
Theorem assignTeamAndDriver_once (userId userId' : option ObjectId) db id
    workers driverId workers' driverId' (r : Project) db' :
  assignTeamAndDriver userId id workers driverId db = (inr r, db') →
  ∃ message,
    assignTeamAndDriver userId' id workers' driverId' db'
    = (inl (ApiError 400 message), db').
Proof.
  intros Hrun.
  apply assignTeamAndDriver_success in Hrun
    as (p & ws & d & _ & _ & _ & _ & _ & -> & ->).
  eapply assignTeamAndDriver_wrong_status.
  - unfold set_projects. cbn. apply lookup_insert_eq.
  - done.
Qed.

Lemma populate_all (us : gmap ObjectId User) (ws : list ObjectId) :
  (∀ w, w ∈ ws → is_Some (us !! w)) →
  (ExpenseController.populate us ws).*1 = ws.
Proof.
  unfold ExpenseController.populate.
  induction ws as [|w ws IH]; intros Hws; [done|]. cbn.
  destruct (Hws w) as [u Hu]; [by left|]. rewrite Hu. cbn.
  f_equal. apply IH. intros w' Hw'. apply Hws. by right.
Qed.

(** X3. After a successful [assignTeamAndDriver], [getAssignedTeam] returns
    the submitted workers, in the submitted order, and the submitted
    driver. *)
Theorem assigned_team_round_trip (userId : option ObjectId) db id workers
    driverId (r : Project) db' :
  assignTeamAndDriver userId id workers driverId db = (inr r, db') →
  ∃ members chauffeur,
    getAssignedTeam id db' = (inr (members, Some chauffeur), db')
    ∧ workers = Some (m_id <$> members)
    ∧ driverId = Some (m_id chauffeur).
Proof.
  intros Hrun.
  apply assignTeamAndDriver_success in Hrun
    as (p & ws & d & _ & -> & -> & _ & Hteam & -> & ->).
  destruct Hteam as (_ & _ & Hws & u & Hu & _).
  unfold getAssignedTeam. run_handler. rewrite lookup_insert_eq.
  unfold ExpenseController.populate_one. cbn. rewrite Hu. cbn.
  eexists _, _. split; [reflexivity|]. split; [|done].
  rewrite <- list_fmap_compose. f_equal.
  change (m_id ∘ select_member) with (@fst ObjectId User).
  symmetry. apply populate_all. intros w Hw.
  destruct (Hws w Hw) as (u' & -> & _). by eexists.
Qed.

End TeamHandlers.

(** ** Changing the team of a project *)

Section TeamUpdates.

Import Mongo ProjectController Team.

Implicit Types (db : Db) (id : ObjectId) (p : Project).

(** What [updateWorkersAndDriver] does on a stored project: it throws and
    changes nothing, or it stores a project that differs from the old one
    in the workers and the driver only. *)
Lemma updateWorkersAndDriver_cases db id p workers driver :
  projects db !! id = Some p →
  (∃ e, updateWorkersAndDriver id workers driver db = (inl e, db))
  ∨ (∃ r,
       updateWorkersAndDriver id workers driver db
       = (inr r, set_projects (<[id := r]>) db)
       ∧ r = with_driver
               (with_workers p
                  match workers with
                  | WorkersArray ws => ws
                  | _ => assignedWorkers p
                  end)
               match driver with
               | DriverId d => Some d
               | DriverNull => None
               | DriverUndefined => assignedDriver p
               end
       ∧ match workers with
         | WorkersArray ws =>
           NoDup ws
           ∧ ∀ w, w ∈ ws →
                  ∃ u, users db !! w = Some u ∧ role u = "worker"
         | _ => True
         end
       ∧ match driver with
         | DriverId d => ∃ u, users db !! d = Some u ∧ role u = "driver"
         | _ => True
         end).
Proof.
  intros Hp. unfold updateWorkersAndDriver.
  destruct (negb (workers_truthy workers) && negb (driver_truthy driver));
    [left; by eexists|].
  unfold find_workers, find_driver. run_handler. rewrite Hp.
  assert (∀ d, (∃ u, users db !! d = Some u ∧ role u = "driver")
               ∨ match users db !! d with
                 | Some u =>
                   if String.eqb (role u) "driver" then Some u else None
                 | None => None
                 end = None) as Hdriver.
  { intros d. destruct (users db !! d) as [u|]; [|by right].
    destruct (String.eqb_spec (role u) "driver"); [left; by exists u|].
    by right. }
  destruct workers as [|ws|t]; [| |left; by eexists].
  - destruct driver as [| |d].
    + right. eexists. split; [reflexivity|]. by destruct p.
    + right. eexists. split; [reflexivity|]. by destruct p.
    + destruct (Hdriver d) as [(u & Hu & Hr)| ->]; [|left; by eexists].
      rewrite Hu, Hr. right. eexists. split; [reflexivity|].
      split; [by destruct p|]. split; [done|]. by exists u.
  - destruct (Nat.eqb_spec
                (length (filter (λ kv : ObjectId * User,
                                   kv.1 ∈ ws ∧ role kv.2 = "worker")
                                (map_to_list (users db))).*1)
                (length ws)) as [Hlen|]; cbn [negb]; [|left; by eexists].
    apply valid_workers_length in Hlen.
    destruct driver as [| |d].
    + right. eexists. split; [reflexivity|]. done.
    + right. eexists. split; [reflexivity|]. done.
    + destruct (Hdriver d) as [(u & Hu & Hr)| ->]; [|left; by eexists].
      rewrite Hu, Hr. right. eexists. split; [reflexivity|].
      split; [done|]. split; [done|]. by exists u.
Qed.

(** X4. [updateWorkersAndDriver] works in every status and never changes
    the status, the progress or [updatedBy]: a successful call stores the
    submitted array of workers, or keeps the workers when none is
    submitted, and stores the submitted driver, clears the driver on a
    falsy value, or keeps the driver when none is submitted. *)
Theorem updateWorkersAndDriver_effect db id p workers driver (r : Project)
    db' :
  projects db !! id = Some p →
  updateWorkersAndDriver id workers driver db = (inr r, db') →
  db' = set_projects (<[id := r]>) db
  ∧ status r = status p ∧ progress r = progress p
  ∧ updatedBy r = updatedBy p
  ∧ assignedWorkers r
    = match workers with
      | WorkersArray ws => ws
      | _ => assignedWorkers p
      end
  ∧ assignedDriver r
    = match driver with
      | DriverId d => Some d
      | DriverNull => None
      | DriverUndefined => assignedDriver p
      end.
Proof.
  intros Hp Hrun.
  destruct (updateWorkersAndDriver_cases db id p workers driver Hp)
    as [[e He]|(r' & Hr' & -> & _)]; [congruence|].
  rewrite Hrun in Hr'. by injection Hr' as -> ->.
Qed.

(** X5. The driver of a project cannot be cleared on its own: a request
    whose [driver] is [null] and that has no [workers] is refused with
    "Either workers or driver must be provided", while the same [null]
    sent together with an array of distinct workers, even the empty array,
    clears the driver and stores the array. *)
Theorem driver_cleared_only_with_workers db id p :
  projects db !! id = Some p →
  updateWorkersAndDriver id WorkersUndefined DriverNull db
  = (inl (ApiError 400 "Either workers or driver must be provided"), db)
  ∧ ∀ ws : list ObjectId,
      NoDup ws →
      (∀ w, w ∈ ws →
            ∃ u, users db !! w = Some u ∧ role u = "worker") →
      updateWorkersAndDriver id (WorkersArray ws) DriverNull db
      = (inr (with_driver (with_workers p ws) None),
         set_projects (<[id := with_driver (with_workers p ws) None]>) db).
Proof.
  intros Hp. split; [done|]. intros ws Hnd Hws.
  unfold updateWorkersAndDriver, find_workers.
  cbn [negb workers_truthy driver_truthy andb]. run_handler. rewrite Hp.
  by rewrite (proj2 (valid_workers_length _ _) (conj Hnd Hws)), Nat.eqb_refl.
Qed.

Lemma assignTeamAndDriver_failure (userId : option ObjectId) db id workers
    driverId (e : Error) db' :
  assignTeamAndDriver userId id workers driverId db = (inl e, db') →
  db' = db.
Proof.
  unfold assignTeamAndDriver.
  destruct workers as [ws|], driverId as [d|]; try by intros [= _ <-].
  destruct (length ws =? 0)%nat; [by intros [= _ <-]|].
  unfold find_workers, find_driver. run_handler.
  destruct (projects db !! id) as [p|]; [|by intros [= _ <-]].
  destruct (negb _); [by intros [= _ <-]|]. cbn.
  destruct (negb _); [by intros [= _ <-]|].
  destruct (users db !! d) as [u|]; [|by intros [= _ <-]].
  destruct (String.eqb (role u) "driver"); by intros [= _ <-].
Qed.

Lemma updateWorkersAndDriver_failure db id workers driver (e : Error) db' :
  updateWorkersAndDriver id workers driver db = (inl e, db') →
  db' = db.
Proof.
  destruct (projects db !! id) as [p|] eqn:Hp.
  - destruct (updateWorkersAndDriver_cases db id p workers driver Hp)
      as [[e' ->]|(r & -> & _)]; [by intros [= _ <-] | done].
  - unfold updateWorkersAndDriver.
    destruct (_ && _); [by intros [= _ <-]|].
    run_handler. rewrite Hp. by intros [= _ <-].
Qed.

(** X6. The handlers [updateProjectStatus], [updateProject],
    [deleteProject], [assignTeamAndDriver] and [updateWorkersAndDriver]
    write only after their last check: whenever one of them throws, the
    database is exactly what it was. *)
Theorem failed_request_changes_nothing (table : gmap string (list string))
    (userId : option ObjectId) db id (e : Error) db' :
  (∀ status',
     updateProjectStatus table userId id status' db = (inl e, db') →
     db' = db)
  ∧ (∀ status' progress',
       updateProject table userId id status' progress' db = (inl e, db') →
       db' = db)
  ∧ (deleteProject id db = (inl e, db') → db' = db)
  ∧ (∀ workers driverId,
       assignTeamAndDriver userId id workers driverId db = (inl e, db') →
       db' = db)
  ∧ (∀ workers driver,
       updateWorkersAndDriver id workers driver db = (inl e, db') →
       db' = db).
Proof.
  split_and!.
  - intros status'. unfold updateProjectStatus.
    destruct status' as [target|]; [|by intros [= _ <-]].
    destruct (JS.truthy (Some target)); [|by intros [= _ <-]].
    run_handler. destruct (projects db !! id) as [p|]; [|by intros [= _ <-]].
    destruct (negb _); by intros [= _ <-].
  - intros status' progress'. unfold updateProject. run_handler.
    destruct (projects db !! id) as [p|]; [|by intros [= _ <-]].
    destruct progress' as [n|]; [destruct (_ || _); [by intros [= _ <-]|]|];
      (destruct status' as [target|];
       [destruct (_ && _); [by intros [= _ <-]|]|]);
      cbn [set_status set_progress];
      repeat (destruct (bool_decide _) || destruct (_ || _));
      by intros [= _ <-].
  - unfold deleteProject. run_handler.
    destruct (projects db !! id) as [p|]; [|by intros [= _ <-]].
    destruct (negb _); by intros [= _ <-].
  - intros workers driverId. apply assignTeamAndDriver_failure.
  - intros workers driver. apply updateWorkersAndDriver_failure.
Qed.

End TeamUpdates.

(** ** Progress and generic updates *)

Section ProgressUpdates.

Import Mongo ProjectController.

Variable table : gmap string (list string).
Variable userId : option ObjectId.

Implicit Types (db : Db) (id : ObjectId) (p : Project).

Lemma progress_invalid_check (n : Z) :
  ¬ 0 ≤ n ≤ 100 → (n <? 0) || (100 <? n) = true.
Proof. intros. apply orb_true_iff. lia. Qed.

(** X7. Unlike [updateProjectProgress], a progress sent through
    [updateProject] never moves the status, not even the progress 100: with
    no [status] field the call stores the progress and keeps the status when
    the progress is between 0 and 100; a progress outside this range is
    refused with "Progress must be between 0 and 100" before the status is
    looked at, whatever status is requested. *)
Theorem updateProject_progress_keeps_status db id p (n : Z) :
  projects db !! id = Some p →
  (0 ≤ n ≤ 100 →
   ∃ p',
     updateProject table userId id None (Some n) db
     = (inr (Some p'), set_projects (<[id := p']>) db)
     ∧ status p' = status p ∧ progress p' = n)
  ∧ (¬ 0 ≤ n ≤ 100 →
     ∀ status',
       updateProject table userId id status' (Some n) db
       = (inl (ApiError 400 "Progress must be between 0 and 100"), db)).
Proof.
  intros Hp. split; intros Hn.
  - exists (apply_update (mkUpdate None (Some n) userId) p).
    split; [|done].
    rewrite <- (findByIdAndUpdate_found _ _ _ _ Hp).
    unfold updateProject. run_handler. rewrite Hp.
    cbn [set_status set_progress].
    by rewrite (progress_valid_check n Hn).
  - intros status'. unfold updateProject. run_handler.
    by rewrite Hp, (progress_invalid_check n Hn).
Qed.

Lemma auto_advance_fields p :
  progress (auto_advance p) = progress p
  ∧ updatedBy (auto_advance p) = updatedBy p
  ∧ assignedWorkers (auto_advance p) = assignedWorkers p
  ∧ assignedDriver (auto_advance p) = assignedDriver p
  ∧ status (auto_advance p) ∈ [status p; "work_started"; "in_progress"].
Proof.
  unfold auto_advance.
  destruct ((0 <=? progress p) && String.eqb (status p) "team_assigned");
    cbn [progress status with_status];
    destruct ((0 <? progress p) && String.eqb _ "work_started");
    cbn; split_and!; try done; repeat constructor.
Qed.

(** X8. The answers of [updateProjectProgress] to a body whose progress is
    absent or a number: an absent progress or one outside 0..100 is refused
    with a 400 error, also for a project that does not exist; a valid
    progress for a missing project gives the 404 error; a valid progress for
    a stored project is stored, [updatedBy] becomes the user of the request,
    or is kept when the request has none, the workers and the driver are
    kept, and the status is the old one, [work_started], [in_progress] or
    [work_completed]. *)
Theorem updateProjectProgress_answers db id progress' :
  (match progress' with
   | None => True
   | Some n => ¬ 0 ≤ n ≤ 100
   end →
   updateProjectProgress userId id progress' db
   = (inl (ApiError 400 "Progress must be between 0 and 100"), db))
  ∧ (∀ n, progress' = Some n → 0 ≤ n ≤ 100 →
          projects db !! id = None →
          updateProjectProgress userId id progress' db
          = (inl (ApiError 404 "Project not found"), db))
  ∧ (∀ n p, progress' = Some n → 0 ≤ n ≤ 100 →
            projects db !! id = Some p →
            ∃ p',
              updateProjectProgress userId id progress' db
              = (inr (Some p'), set_projects (<[id := p']>) db)
              ∧ progress p' = n
              ∧ updatedBy p' = match userId with
                               | Some user => Some user
                               | None => updatedBy p
                               end
              ∧ assignedWorkers p' = assignedWorkers p
              ∧ assignedDriver p' = assignedDriver p
              ∧ status p' ∈ [status p; "work_started"; "in_progress";
                             "work_completed"]).
Proof.
  split_and!.
  - destruct progress' as [n|]; [|done]. intros Hn.
    unfold updateProjectProgress. by rewrite (progress_invalid_check n Hn).
  - intros n -> Hn Hp. unfold updateProjectProgress.
    rewrite (progress_valid_check n Hn). run_handler. by rewrite Hp.
  - intros n p -> Hn Hp. eexists.
    split; [by apply updateProjectProgress_run|].
    destruct (auto_advance_fields p) as (_ & Hu & Hw & Hd & Hs).
    cbn. rewrite Hu. split_and!; try done.
    destruct ((n =? 100) && negb _); cbn.
    + repeat constructor.
    + rewrite !elem_of_cons in Hs. rewrite !elem_of_cons. tauto.
Qed.

End ProgressUpdates.

(** ** The transition tables as graphs *)

Section Tables.

Import Mongo ProjectController Api.

Implicit Types (db : Db) (id : ObjectId) (p : Project).

Lemma table_forall (P : list string → Prop)
    (table : gmap string (list string)) :
  P [] →
  map_Forall (λ _, P) table →
  ∀ from, P (entry table from).
Proof.
  intros Hnil Hall from. unfold entry.
  destruct (table !! from) as [l|] eqn:Hl; [|done].
  by apply (Hall from l).
Qed.

Lemma tables_in_enum :
  table_in_enum validStatusTransitions
  ∧ table_in_enum validStatusTransitions_dist.
Proof.
  split; intros from; apply Forall_forall; revert from;
    apply (table_forall (Forall (λ to, to ∈ status_enum)));
    try (by constructor);
    apply (bool_decide_unpack _); by vm_compute.
Qed.

Lemma tables_never_draft :
  never_draft validStatusTransitions
  ∧ never_draft validStatusTransitions_dist.
Proof.
  split; intros from;
    apply (table_forall (λ l, "draft" ∉ l));
    try (by intros ?%elem_of_nil);
    apply (bool_decide_unpack _); by vm_compute.
Qed.

(** X10. The statuses [cancelled], [project_closed] and
    [quotation_rejected] are final for explicit updates only: with either
    table every [updateProjectStatus] on such a project throws and changes
    nothing, yet a progress update to 100 still moves the project to
    [work_completed]. *)
Theorem final_status_left_by_progress (userId : option ObjectId) db id p
    status' :
  projects db !! id = Some p →
  status p ∈ ["cancelled"; "project_closed"; "quotation_rejected"] →
  (∃ e, updateProjectStatus validStatusTransitions userId id status' db
        = (inl e, db))
  ∧ (∃ e,
       updateProjectStatus validStatusTransitions_dist userId id status' db
       = (inl e, db))
  ∧ stored_status id (updateProjectProgress userId id (Some 100) db)
    = Some "work_completed".
Proof.
  intros Hp Hs.
  assert (∀ table,
            entry table (status p) = [] →
            ∃ e, updateProjectStatus table userId id status' db = (inl e, db))
    as Hfinal.
  { intros table Hentry. unfold updateProjectStatus.
    destruct status' as [target|]; [|by eexists].
    destruct (JS.truthy (Some target)) eqn:Ht; [|by eexists].
    eexists. run_handler. rewrite Hp.
    assert (includes table (status p) target = false) as ->; [|done].
    apply includes_not_entry. rewrite Hentry. apply not_elem_of_nil. }
  rewrite !elem_of_cons, elem_of_nil in Hs. split_and!.
  - apply Hfinal. by destruct Hs as [->|[->|[->|[]]]]; vm_compute.
  - apply Hfinal. by destruct Hs as [->|[->|[->|[]]]]; vm_compute.
  - rewrite (updateProjectProgress_run _ _ _ _ _ Hp) by lia.
    unfold stored_status, set_projects. cbn. rewrite lookup_insert_eq. cbn.
    assert (status (auto_advance p) = status p) as ->.
    { unfold auto_advance.
      by destruct Hs as [E|[E|[E|[]]]]; rewrite E; cbn;
        rewrite ?andb_false_r, ?E; cbn; rewrite ?andb_false_r. }
    by destruct Hs as [->|[->|[->|[]]]].
Qed.

End Tables.

(** ** Invariants over sequences of requests *)

(** Splits a conjunction of three parts. *)
Ltac split3 := split; [|split].

Section Traces.

Import Mongo ProjectController Team Api.

Variable table : gmap string (list string).

Implicit Types (db : Db) (id : ObjectId) (p : Project) (c : Call).

(** How the stored project [id] may change under the request [c]. *)
Let changed c id (us : gmap ObjectId User) p (p' : Project) : Prop :=
  (status p' = status p
   ∨ (status p' ∈ entry table (status p)
      ∧ ∃ userId, c = UpdateProjectStatus userId id (Some (status p')))
   ∨ (status p' ∈ ["work_started"; "in_progress"; "work_completed"]
      ∧ ∃ userId progress', c = UpdateProjectProgress userId id progress')
   ∨ (status p' = "team_assigned" ∧ status p = "lpo_received"
      ∧ ∃ userId workers driverId,
          c = AssignTeamAndDriver userId id workers driverId))
  ∧ (progress p' = progress p ∨ 0 ≤ progress p' ≤ 100)
  ∧ (team_ok us p → team_ok us p').

(** A request leaves the users alone, and either leaves the projects alone,
    or rewrites one stored project, or deletes one draft. *)
Lemma call_shape c db :
  users (call table c db) = users db
  ∧ (projects (call table c db) = projects db
     ∨ (∃ id p p',
          projects db !! id = Some p
          ∧ projects (call table c db) = <[id := p']> (projects db)
          ∧ changed c id (users db) p p')
     ∨ (∃ id p,
          projects db !! id = Some p ∧ status p = "draft"
          ∧ projects (call table c db) = delete id (projects db))).
Proof.
  destruct c as [userId id status'|userId id progress'|id
                |userId id workers driverId|id workers driver|id];
    cbn [call].
  - unfold updateProjectStatus.
    destruct status' as [target|]; [|by split; [|left]].
    destruct (JS.truthy (Some target)); [|by split; [|left]].
    run_handler. destruct (projects db !! id) as [p|] eqn:Hp;
      [|by split; [|left]].
    destruct (includes table (status p) target) eqn:Hin;
      cbn [negb]; [|by split; [|left]].
    split; [done|]. right. left. eexists id, p, _. split; [done|].
    split; [by apply alter_found|].
    apply includes_entry in Hin. unfold changed, team_ok. cbn.
    split3; [right; left; split; [done|by exists userId]|by left|done].
  - destruct progress' as [n|]; [|by split; [|left]].
    destruct (decide (0 ≤ n ≤ 100)) as [Hn|Hn].
    + destruct (projects db !! id) as [p|] eqn:Hp.
      * rewrite (updateProjectProgress_run userId _ _ _ _ Hp Hn).
        split; [done|]. right. left. eexists id, p, _.
        split; [done|]. split; [done|].
        destruct (auto_advance_fields p) as (_ & _ & Hw & Hd & Hs).
        unfold changed, team_ok. cbn. rewrite Hw, Hd.
        split3; [|right; lia|done].
        assert (∃ userId0 progress',
                  UpdateProjectProgress userId id (Some n)
                  = UpdateProjectProgress userId0 id progress') as Hc
          by by eexists _, _.
        rewrite !elem_of_cons in Hs. rewrite !elem_of_cons.
        destruct ((n =? 100) && negb _); cbn;
          [right; right; left; split; [auto|done]|].
        destruct Hs as [Hs|[Hs|[Hs|Hs%elem_of_nil]]]; [by left|..|done];
          right; right; left; (split; [rewrite Hs; auto|done]).
      * unfold updateProjectProgress. rewrite (progress_valid_check n Hn).
        run_handler. rewrite Hp. by split; [|left].
    + unfold updateProjectProgress.
      rewrite (progress_invalid_check n Hn). by split; [|left].
  - unfold deleteProject. run_handler.
    destruct (projects db !! id) as [p|] eqn:Hp; [|by split; [|left]].
    destruct (String.eqb_spec (status p) "draft") as [Hs|];
      cbn [negb]; [|by split; [|left]].
    split; [done|]. right. right. by exists id, p.
  - destruct (assignTeamAndDriver userId id workers driverId db)
      as [[e|r] db'] eqn:Hrun.
    + rewrite (assignTeamAndDriver_failure _ _ _ _ _ _ _ Hrun).
      by split; [|left].
    + apply assignTeamAndDriver_success in Hrun
        as (p & ws & d & Hp & _ & _ & Hlpo & Hteam & -> & ->).
      split; [done|]. right. left. eexists id, p, _.
      split; [done|]. split; [done|].
      destruct Hteam as (_ & Hnd & Hws & Hd).
      unfold changed, team_ok. cbn.
      split3; [do 3 right; by eauto 7|by left|].
      intros _. split3; [done|done|]. by intros d' [= <-].
  - destruct (projects db !! id) as [p|] eqn:Hp.
    + destruct (updateWorkersAndDriver_cases db id p workers driver Hp)
        as [[e ->]|(r & -> & -> & Hws & Hdr)]; [by split; [|left]|].
      split; [done|]. right. left. eexists id, p, _.
      split; [done|]. split; [done|].
      split3; [by left|by left|].
      intros (Hnd & Hwk & Hd). unfold team_ok. cbn. split3.
      * by destruct workers as [|ws|t]; [|destruct Hws|].
      * by destruct workers as [|ws|t]; [|destruct Hws|].
      * destruct driver as [| |d]; [done|done|]. by intros d' [= <-].
    + destruct (updateWorkersAndDriver id workers driver db)
        as [[e|r] db'] eqn:Hrun.
      * rewrite (updateWorkersAndDriver_failure _ _ _ _ _ _ Hrun).
        by split; [|left].
      * exfalso. revert Hrun. unfold updateWorkersAndDriver.
        destruct (_ && _); [done|]. run_handler. by rewrite Hp.
  - unfold ExpenseReports.getProjectLaborData, ExpenseReports.try_catch.
    pose proof (calculateLaborDetails_reads db id) as (Hp & Hu & _).
    destruct (ExpenseController.calculateLaborDetails id db)
      as [[e|r] db'] eqn:Hrun; cbn in Hp, Hu |- *;
      by split; [|left].
Qed.

Lemma call_users c db : users (call table c db) = users db.
Proof. apply call_shape. Qed.

Lemma calls_cons c (cs : list Call) db :
  calls table (c :: cs) db = calls table cs (call table c db).
Proof. reflexivity. Qed.

Lemma calls_users (cs : list Call) db : users (calls table cs db) = users db.
Proof.
  revert db. induction cs as [|c cs IH]; intros db; [done|].
  by rewrite calls_cons, IH, call_users.
Qed.

(** A property kept by every change of a stored project is kept by every
    request. *)
Lemma call_keeps (P : Project → Prop) c db :
  (∀ id p p', changed c id (users db) p p' → P p → P p') →
  all_projects P db → all_projects P (call table c db).
Proof.
  intros Hkeep Hall id p'.
  destruct (call_shape c db)
    as (_ & [-> | [(i & p & q & Hp & -> & Hch) | (i & p & Hp & _ & ->)]]).
  - apply Hall.
  - destruct (decide (i = id)) as [->|Hne].
    + rewrite lookup_insert_eq. intros [= <-].
      eapply Hkeep; [done|]. by eapply Hall.
    + rewrite lookup_insert_ne by done. apply Hall.
  - intros [_ Hp']%lookup_delete_Some. by eapply Hall.
Qed.

Lemma changed_project_ok c id (us : gmap ObjectId User) p (p' : Project) :
  table_in_enum table → changed c id us p p' → project_ok p → project_ok p'.
Proof.
  intros Htable (Hs & Hn & _) [Henum Hrange]. split.
  - destruct Hs as [Hs|[[Hs _]|[[Hs _]|[Hs _]]]].
    + by rewrite Hs.
    + by eapply Htable.
    + revert Hs. generalize (status p'). apply Forall_forall.
      apply (bool_decide_unpack _). by vm_compute.
    + rewrite Hs. apply (bool_decide_unpack _). by vm_compute.
  - destruct Hn as [->|]; done.
Qed.

(** X11. The invariant of the data model is kept by every sequence of
    requests to [updateProjectStatus], [updateProjectProgress] (with a
    progress that is a number or absent), [deleteProject],
    [assignTeamAndDriver], [updateWorkersAndDriver] and
    [getProjectLaborData], with the table of the source as with the
    compiled one: if every stored project has a status of the enum and a
    progress between 0 and 100, this is still so after the requests.
    Requests to [updateProject], which hands the whole body to
    [findByIdAndUpdate], are not covered. *)
Theorem requests_keep_projects_valid (cs : list Call) db :
  table ∈ [validStatusTransitions; validStatusTransitions_dist] →
  all_projects project_ok db →
  all_projects project_ok (calls table cs db).
Proof.
  intros Htable.
  assert (table_in_enum table) as Henum.
  { destruct tables_in_enum.
    rewrite !elem_of_cons, elem_of_nil in Htable.
    by destruct Htable as [->|[->|[]]]. }
  revert db. induction cs as [|c cs IH]; intros db Hall; [done|].
  rewrite calls_cons. apply IH, call_keeps; [|done].
  intros i p p'. by apply changed_project_ok.
Qed.

(** X12. The teams stay valid under every sequence of requests to
    [updateProjectStatus], [updateProjectProgress] (with a progress that is
    a number or absent), [deleteProject], [assignTeamAndDriver],
    [updateWorkersAndDriver] and [getProjectLaborData]: if the workers of
    every stored project are distinct users with the role [worker] and its
    driver, if any, is a user with the role [driver], this is still so
    after the requests.  Requests to [updateProject], which can carry
    [assignedWorkers] in the body, are not covered. *)
Theorem requests_keep_teams_valid (cs : list Call) db :
  all_projects (team_ok (users db)) db →
  all_projects (team_ok (users db)) (calls table cs db).
Proof.
  revert db. induction cs as [|c cs IH]; intros db Hall; [done|].
  rewrite calls_cons, <- (call_users c db). apply IH.
  rewrite call_users. apply call_keeps; [|done].
  by intros i p p' (_ & _ & Hteam).
Qed.

(** X13. Through [updateProjectStatus], [updateProjectProgress] (with a
    progress that is a number or absent), [deleteProject],
    [assignTeamAndDriver], [updateWorkersAndDriver] and
    [getProjectLaborData] there is no way back to [draft], and so no way to
    delete a project that has left it: with either table, a stored project
    whose status is not [draft] is still stored, with a status other than
    [draft], after every sequence of such requests.  Requests to
    [updateProject], which hands the whole body to [findByIdAndUpdate], are
    not covered. *)
Theorem past_draft_never_deleted (cs : list Call) db id p :
  table ∈ [validStatusTransitions; validStatusTransitions_dist] →
  projects db !! id = Some p →
  status p ≠ "draft" →
  ∃ p',
    projects (calls table cs db) !! id = Some p' ∧ status p' ≠ "draft".
Proof.
  intros Htable.
  assert (never_draft table) as Hnever.
  { destruct tables_never_draft.
    rewrite !elem_of_cons, elem_of_nil in Htable.
    by destruct Htable as [->|[->|[]]]. }
  revert db p. induction cs as [|c cs IH]; intros db p Hp Hs;
    [by exists p|].
  rewrite calls_cons.
  destruct (call_shape c db)
    as (_ & [Heq | [(i & q & q' & Hq & Heq & Hch) | (i & q & Hq & Hd & Heq)]]).
  - apply (IH _ p); [by rewrite Heq | done].
  - destruct (decide (i = id)) as [->|Hne].
    + apply (IH _ q'); [by rewrite Heq, lookup_insert_eq|].
      rewrite Hp in Hq. injection Hq as <-.
      destruct Hch as ([Hs'|[[Hs' _]|[[Hs' _]|[Hs' _]]]] & _).
      * by rewrite Hs'.
      * intros E. rewrite E in Hs'. by apply (Hnever (status p)).
      * intros E. rewrite E in Hs'.
        assert ("draft" ∉ ["work_started"; "in_progress"; "work_completed"])
          as Hno; [|done].
        apply (bool_decide_unpack _). by vm_compute.
      * by rewrite Hs'.
    + apply (IH _ p); [by rewrite Heq, lookup_insert_ne | done].
  - apply (IH _ p); [|done]. rewrite Heq, lookup_delete_ne; [done|].
    intros ->. congruence.
Qed.

(** The status of a stored project after one request: it is kept, or the
    request is the one that moves it. *)
Lemma call_status c db id p p' :
  projects db !! id = Some p →
  projects (call table c db) !! id = Some p' →
  status p' = status p
  ∨ (status p' ∈ entry table (status p)
     ∧ ∃ userId, c = UpdateProjectStatus userId id (Some (status p')))
  ∨ (status p' ∈ ["work_started"; "in_progress"; "work_completed"]
     ∧ ∃ userId progress', c = UpdateProjectProgress userId id progress')
  ∨ (status p' = "team_assigned" ∧ status p = "lpo_received"
     ∧ ∃ userId workers driverId,
         c = AssignTeamAndDriver userId id workers driverId).
Proof.
  intros Hp Hp'.
  destruct (call_shape c db)
    as (_ & [Heq | [(i & q & q' & Hq & Heq & Hch) | (i & q & Hq & _ & Heq)]]);
    rewrite Heq in Hp'.
  - rewrite Hp in Hp'. injection Hp' as <-. by left.
  - destruct (decide (i = id)) as [->|Hne].
    + rewrite lookup_insert_eq in Hp'. injection Hp' as <-.
      rewrite Hp in Hq. injection Hq as <-. exact (proj1 Hch).
    + rewrite lookup_insert_ne, Hp in Hp' by done.
      injection Hp' as <-. by left.
  - apply lookup_delete_Some in Hp' as [_ Hp'].
    rewrite Hp in Hp'. injection Hp' as <-. by left.
Qed.

Lemma calls_snoc c (cs : list Call) db :
  calls table (cs ++ [c])%list db = call table c (calls table cs db).
Proof. unfold calls. by rewrite foldl_snoc. Qed.

Lemma reachable_by_status db id (from to : string) :
  to ∈ status_enum →
  to ∈ entry table from →
  reachable table db id from → reachable table db id to.
Proof.
  intros Henum Hin (cs & p & Hp & <-).
  exists (cs ++ [UpdateProjectStatus None id (Some to)])%list. eexists.
  rewrite calls_snoc. cbn [call].
  rewrite (updateProjectStatus_accepts _ _ _ _ _ _ Hp (enum_truthy _ Henum)
             Hin).
  unfold set_projects. cbn. by rewrite lookup_insert_eq.
Qed.

Lemma reachable_by_assignment db id (w d : ObjectId) (uw ud : User) :
  users db !! w = Some uw → role uw = "worker" →
  users db !! d = Some ud → role ud = "driver" →
  reachable table db id "lpo_received" →
  reachable table db id "team_assigned".
Proof.
  intros Hw Hrw Hd Hrd (cs & p & Hp & Hs).
  assert (valid_team (users (calls table cs db)) [w] d) as Hteam.
  { rewrite calls_users. split; [done|]. split; [apply NoDup_singleton|].
    split; [|by exists ud].
    intros w' ->%list_elem_of_singleton. by exists uw. }
  destruct (assignTeamAndDriver_valid None _ _ _ _ _ Hp Hs Hteam)
    as (r & db' & Hrun).
  exists (cs ++ [AssignTeamAndDriver None id (Some [w]) (Some d)])%list, r.
  rewrite calls_snoc. cbn [call]. rewrite Hrun.
  apply assignTeamAndDriver_success in Hrun
    as (p0 & ws & d0 & _ & _ & _ & _ & _ & -> & ->).
  unfold set_projects. cbn. by rewrite lookup_insert_eq.
Qed.

(** One explicit step of a path, allowed by both tables. *)
Ltac reach Hgo from to R name :=
  pose proof (Hgo from to eq_refl eq_refl eq_refl R) as name.

(** X23. Every status of the enum can occur: with either table, a [draft]
    project can be brought to each of the seventeen statuses by a sequence
    of requests, provided a worker and a driver exist for the step through
    [assignTeamAndDriver]. *)
Theorem every_status_reachable db id p (w d : ObjectId) (uw ud : User)
    (s : string) :
  table ∈ [validStatusTransitions; validStatusTransitions_dist] →
  projects db !! id = Some p → status p = "draft" →
  users db !! w = Some uw → role uw = "worker" →
  users db !! d = Some ud → role ud = "driver" →
  s ∈ status_enum →
  reachable table db id s.
Proof.
  intros Htable Hp Hs Hw Hrw Hd Hrd.
  assert (∀ from to,
            to ∈ entry validStatusTransitions from →
            to ∈ entry validStatusTransitions_dist from →
            to ∈ status_enum →
            reachable table db id from → reachable table db id to) as Hstep.
  { intros from to H1 H2 Henum. apply reachable_by_status; [done|].
    rewrite !elem_of_cons, elem_of_nil in Htable.
    by destruct Htable as [->|[->|[]]]. }
  assert (∀ from to,
            bool_decide (to ∈ entry validStatusTransitions from) = true →
            bool_decide (to ∈ entry validStatusTransitions_dist from)
            = true →
            bool_decide (to ∈ status_enum) = true →
            reachable table db id from → reachable table db id to) as Hgo.
  { intros from to H1%bool_decide_eq_true H2%bool_decide_eq_true
      H3%bool_decide_eq_true. by apply Hstep. }
  assert (reachable table db id "draft") as R0 by by exists [], p.
  reach Hgo "draft" "estimation_prepared" R0 R1.
  reach Hgo "estimation_prepared" "quotation_sent" R1 R2.
  reach Hgo "estimation_prepared" "on_hold" R1 Rhold.
  reach Hgo "estimation_prepared" "cancelled" R1 Rcancel.
  reach Hgo "quotation_sent" "quotation_rejected" R2 Rrej.
  reach Hgo "quotation_sent" "quotation_approved" R2 R3.
  reach Hgo "quotation_approved" "lpo_received" R3 R4.
  pose proof (reachable_by_assignment _ _ _ _ _ _ Hw Hrw Hd Hrd R4) as R5.
  reach Hgo "team_assigned" "work_started" R5 R6.
  reach Hgo "work_started" "in_progress" R6 R7.
  reach Hgo "in_progress" "work_completed" R7 R8.
  reach Hgo "work_completed" "quality_check" R8 R9.
  reach Hgo "quality_check" "client_handover" R9 R10.
  reach Hgo "client_handover" "final_invoice_sent" R10 R11.
  reach Hgo "final_invoice_sent" "payment_received" R11 R12.
  reach Hgo "payment_received" "project_closed" R12 R13.
  unfold status_enum. rewrite !elem_of_cons, elem_of_nil.
  intros [->|[->|[->|[->|[->|[->|[->|[->|[->|[->|[->|[->|[->|[->|[->|[->|[->|[]
    ]]]]]]]]]]]]]]]]]; assumption.
Qed.

End Traces.

Section TeamAssigned.

Import Mongo ProjectController Team Api.

Implicit Types (db : Db) (id : ObjectId) (p : Project) (c : Call).

(** X9. With the table of the TypeScript source the status [team_assigned]
    is entered through [assignTeamAndDriver] only.  Of the requests to
    [updateProjectStatus], [updateProjectProgress], [deleteProject],
    [assignTeamAndDriver], [updateWorkersAndDriver] and
    [getProjectLaborData], one that finds a stored project in another
    status and leaves it in [team_assigned] is a request to
    [assignTeamAndDriver] for this project, which was in [lpo_received].
    And [updateProject], called with a body that holds the status
    [team_assigned], an absent or valid progress and nothing else, refuses
    it as an invalid transition from every status. *)
Theorem team_assigned_only_by_assignment db id p :
  projects db !! id = Some p →
  (∀ c p',
     status p ≠ "team_assigned" →
     projects (call validStatusTransitions c db) !! id = Some p' →
     status p' = "team_assigned" →
     status p = "lpo_received"
     ∧ ∃ userId workers driverId,
         c = AssignTeamAndDriver userId id workers driverId)
  ∧ (∀ userId progress',
       progress_valid progress' →
       updateProject validStatusTransitions userId id
         (Some "team_assigned") progress' db
       = (inl (invalid_transition (status p) "team_assigned"), db)).
Proof.
  intros Hp.
  assert ("team_assigned" ∉ entry validStatusTransitions (status p)) as Hout.
  { apply (table_forall (λ l, "team_assigned" ∉ l));
      [by intros ?%elem_of_nil|].
    apply (bool_decide_unpack _). by vm_compute. }
  split.
  - intros c p' Hs Hp' Hs'.
    destruct (call_status validStatusTransitions c db id p p' Hp Hp')
      as [E|[[Hin _]|[[Hin _]|(_ & Hlpo & Hc)]]].
    + congruence.
    + by rewrite Hs' in Hin.
    + rewrite Hs' in Hin. exfalso. revert Hin.
      apply (bool_decide_unpack _). by vm_compute.
    + done.
  - intros userId progress' Hr. apply updateProject_rejects; try done.
    apply (bool_decide_unpack _). by vm_compute.
Qed.

End TeamAssigned.

(** ** The labor aggregator and its callers *)

Section LaborMore.

Import Mongo ExpenseController Calendar LaborSpec ExpenseReports Marking.

Implicit Types (db : Db) (p : Project) (coll : list Attendance).


Lemma worker_days_match_stage (projectId i : ObjectId) coll :
  worker_days projectId i coll
  = Z.of_nat (length (filter (λ r, a_user r = i)
                             (match_stage projectId coll))).
Proof.
  unfold worker_days, match_stage. rewrite list_filter_filter.
  do 2 f_equal. apply list_filter_iff. intros r. tauto.
Qed.

(** Two databases with the same projects and users, and the same worker
    days and attended dates for a project, give the same figures. *)
Lemma labor_totals_agree db1 db2 (projectId : ObjectId) :
  projects db1 = projects db2 →
  users db1 = users db2 →
  (∀ i, worker_days projectId i (attendance db1)
        = worker_days projectId i (attendance db2)) →
  distinct_dates projectId (attendance db1)
  = distinct_dates projectId (attendance db2) →
  match (calculateLaborDetails projectId db1).1,
        (calculateLaborDetails projectId db2).1 with
  | inr d1, inr d2 => totals d1 = totals d2
  | inl e1, inl e2 => e1 = e2
  | _, _ => False
  end.
Proof.
  intros Hprojects Husers Hdays Hdates.
  destruct (projects db1 !! projectId) as [p|] eqn:Hp.
  - destruct (calculateLaborDetails_found _ _ _ Hp)
      as (d1 & ? & -> & _ & Hws1 & Hdr1 & Hsum1).
    rewrite Hprojects in Hp.
    destruct (calculateLaborDetails_found _ _ _ Hp)
      as (d2 & ? & -> & _ & Hws2 & Hdr2 & Hsum2).
    cbn [fst]. rewrite <- Husers in Hws2, Hdr2.
    assert (workers d1 = workers d2) as Hws.
    { rewrite Hws1, Hws2. apply Forall_fmap_ext, Forall_forall.
      intros w _. by rewrite Hdays. }
    assert (figures (driver d1) = figures (driver d2)) as Hdr.
    { destruct (populate_one _ _) as [d|].
      - by rewrite Hdr1, Hdr2, Hdates.
      - destruct Hdr1 as [_ ->]. by destruct Hdr2 as [_ ->]. }
    unfold totals. rewrite Hsum1, Hsum2, Hws, Hdr. do 2 f_equal.
    by injection Hdr.
  - unfold calculateLaborDetails. run_handler.
    by rewrite <- Hprojects, Hp.
Qed.

(** X15. Only the [present = true] records of the project count: two
    databases with the same projects and users whose attendance collections
    have the same such records, in the same order, and differ in any way in
    the records of absences and of other projects, give the same
    figures. *)
Theorem labor_reads_present_records_only db1 db2 (projectId : ObjectId) :
  projects db1 = projects db2 →
  users db1 = users db2 →
  match_stage projectId (attendance db1)
  = match_stage projectId (attendance db2) →
  match (calculateLaborDetails projectId db1).1,
        (calculateLaborDetails projectId db2).1 with
  | inr d1, inr d2 => totals d1 = totals d2
  | inl e1, inl e2 => e1 = e2
  | _, _ => False
  end.
Proof.
  intros Hprojects Husers Hmatch. apply labor_totals_agree; try done.
  - intros i. by rewrite !worker_days_match_stage, Hmatch.
  - unfold distinct_dates, attended_dates.
    change (filter _ (attendance db1))
      with (match_stage projectId (attendance db1)).
    change (filter _ (attendance db2))
      with (match_stage projectId (attendance db2)).
    by rewrite Hmatch.
Qed.

Lemma worker_days_le_distinct (projectId i : ObjectId) coll :
  NoDup (utc_day ∘ a_date <$>
           filter (λ r, a_project r = Some projectId ∧ a_present r = true
                        ∧ a_user r = i) coll) →
  worker_days projectId i coll ≤ distinct_days projectId coll.
Proof.
  intros Hnd. unfold worker_days, distinct_days, attended_days.
  rewrite <- (length_fmap (utc_day ∘ a_date)).
  rewrite <- (size_list_to_set (C := gset Z)) by done.
  apply inj_le, subseteq_size. intros x.
  rewrite !elem_of_list_to_set, !list_elem_of_fmap.
  intros (r & -> & Hr). exists r. split; [done|].
  apply list_elem_of_filter in Hr as [(? & ? & _) ?].
  by apply list_elem_of_filter.
Qed.

(** X16. For a stored project whose [present] records are dated within the
    years 0000 to 9999 and in which no user is marked present twice on one
    UTC calendar day, [daysPresent] of every worker record of the breakdown
    is at most the number of distinct calendar days attended on the
    project.  When the project has a driver who is a stored user, that
    number is the driver's [daysPresent], so that no worker has more days
    than the driver; when it has no driver, or one who is not stored, the
    driver record has 0 days, whatever the workers have. *)
Theorem workers_days_at_most_drivers db (projectId : ObjectId) p :
  projects db !! projectId = Some p →
  dates_in_range projectId (attendance db) →
  (∀ i, NoDup (utc_day ∘ a_date <$>
                 filter (λ r, a_project r = Some projectId
                              ∧ a_present r = true ∧ a_user r = i)
                        (attendance db))) →
  ∃ details db',
    calculateLaborDetails projectId db = (inr details, db')
    ∧ Forall (λ w, daysPresent w
                   ≤ distinct_days projectId (attendance db))
             (workers details)
    ∧ (∀ d u,
         assignedDriver p = Some d → users db !! d = Some u →
         daysPresent (driver details)
         = distinct_days projectId (attendance db)
         ∧ Forall (λ w, daysPresent w ≤ daysPresent (driver details))
                  (workers details))
    ∧ ((∀ d, assignedDriver p = Some d → users db !! d = None) →
       daysPresent (driver details) = 0).
Proof.
  intros Hp Hrange Hnd.
  destruct (calculateLaborDetails_found _ _ _ Hp)
    as (details & db' & Hrun & _ & Hws & Hdriver & _).
  exists details, db'. split; [done|].
  assert (Forall (λ w, daysPresent w
                       ≤ distinct_days projectId (attendance db))
                 (workers details)) as Hle.
  { rewrite Hws. apply Forall_fmap, Forall_forall. intros w _. cbn.
    by apply worker_days_le_distinct. }
  split_and!; [done| |].
  - intros d u Hd Hu. rewrite Hd in Hdriver. cbn in Hdriver.
    rewrite Hu in Hdriver. cbn in Hdriver.
    assert (daysPresent (driver details)
            = distinct_days projectId (attendance db)) as E
      by by rewrite Hdriver, <- (distinct_dates_days _ _ Hrange).
    split; [done|]. by rewrite E.
  - intros Hnone. destruct (assignedDriver p) as [d|]; cbn in Hdriver.
    + rewrite (Hnone d eq_refl) in Hdriver. cbn in Hdriver.
      destruct Hdriver as [_ Hfig]. by injection Hfig.
    + destruct Hdriver as [_ Hfig]. by injection Hfig.
Qed.

Lemma worker_days_nonneg (projectId i : ObjectId) coll :
  0 ≤ worker_days projectId i coll.
Proof. unfold worker_days. lia. Qed.

Lemma sum_salaries_bounds (ws : list Labor) :
  Forall (λ w, 0 ≤ totalSalary w) ws →
  Forall (λ w, 0 ≤ totalSalary w ≤ sum_salaries ws) ws.
Proof.
  unfold sum_salaries. induction 1 as [|w ws Hw Hws IH]; [constructor|].
  cbn. assert (0 ≤ foldr Z.add 0 (totalSalary <$> ws)).
  { clear IH. induction Hws as [|w' ws' Hw' _ IH']; cbn; lia. }
  constructor; [lia|].
  eapply Forall_impl; [exact IH|]. cbn. intros w' ?. lia.
Qed.

(** X17. With salaries that are not negative, as the user schema demands,
    nothing in a breakdown is negative and no single total exceeds the
    total labor cost: every worker's [totalSalary] and the driver's lie
    between 0 and [totalLaborCost]. *)
Theorem labor_totals_bounded db (projectId : ObjectId)
    (details : LaborDetails) db' :
  (∀ i u, users db !! i = Some u → 0 ≤ default 0 (salary u)) →
  calculateLaborDetails projectId db = (inr details, db') →
  Forall (λ w, 0 ≤ totalSalary w ≤ totalLaborCost details)
         (workers details)
  ∧ 0 ≤ totalSalary (driver details) ≤ totalLaborCost details.
Proof.
  intros Hsalary Hrun.
  destruct (calculateLaborDetails_returns _ _ _ _ Hrun) as [p Hp].
  destruct (calculateLaborDetails_found _ _ _ Hp)
    as (details' & db'' & Hrun' & _ & Hws & Hdriver & Hsum).
  rewrite Hrun in Hrun'. injection Hrun' as <- <-.
  assert (Forall (λ w, 0 ≤ totalSalary w) (workers details)) as Hpos.
  { rewrite Hws. apply Forall_fmap, Forall_forall. intros [i u] Hin. cbn.
    apply Z.mul_nonneg_nonneg; [apply worker_days_nonneg|].
    apply (Hsalary i). unfold populate in Hin.
    apply list_elem_of_omap in Hin as (j & _ & Hj).
    destruct (users db !! j) as [u'|] eqn:Hu'; [|done].
    by injection Hj as <- <-. }
  assert (0 ≤ totalSalary (driver details)) as Hdpos.
  { destruct (populate_one _ _) as [[i u]|] eqn:Hone.
    - rewrite Hdriver. cbn.
      apply Z.mul_nonneg_nonneg; [unfold distinct_dates; lia|].
      apply (Hsalary i). unfold populate_one in Hone.
      destruct (assignedDriver p) as [j|]; [|done]. cbn in Hone.
      destruct (users db !! j) as [u'|] eqn:Hu'; [|done].
      by injection Hone as <- <-.
    - destruct Hdriver as [_ Hfig]. injection Hfig as _ _ ->. lia. }
  rewrite Hsum, reduce_sum.
  assert (0 ≤ sum_salaries (workers details)).
  { unfold sum_salaries. clear -Hpos.
    induction Hpos as [|w ws Hw _ IH]; cbn; lia. }
  split; [|lia].
  eapply Forall_impl; [exact (sum_salaries_bounds _ Hpos)|].
  cbn. intros w ?. lia.
Qed.

Lemma distinct_days_marked (projectId : ObjectId) (r : Attendance) coll :
  a_project r = Some projectId → a_present r = true →
  distinct_days projectId (r :: coll)
  = distinct_days projectId coll
    + (if bool_decide (utc_day (a_date r) ∈ attended_days projectId coll)
       then 0 else 1).
Proof.
  intros Hp Hb. unfold distinct_days, attended_days.
  rewrite filter_cons_True by done. cbn [fmap list_fmap].
  rewrite list_to_set_cons. case_bool_decide as Hin.
  - rewrite Z.add_0_r. do 2 f_equal. apply set_eq. intros x.
    rewrite elem_of_union, elem_of_singleton. split; [|by right].
    by intros [->|?].
  - rewrite size_union by by apply disjoint_singleton_l.
    rewrite size_singleton. lia.
Qed.

Lemma dates_in_range_marked (projectId : ObjectId) (r : Attendance) coll :
  in_four_digit_years (a_date r) →
  dates_in_range projectId coll →
  dates_in_range projectId (r :: coll).
Proof.
  intros Hr Hcoll. unfold dates_in_range. rewrite filter_cons.
  destruct (decide _); [by constructor|done].
Qed.

Lemma worker_days_marked (projectId i : ObjectId) (r : Attendance) coll :
  a_project r = Some projectId → a_present r = true →
  worker_days projectId i (r :: coll)
  = worker_days projectId i coll
    + (if bool_decide (a_user r = i) then 1 else 0).
Proof.
  intros Hp Hb. unfold worker_days. rewrite filter_cons.
  case_bool_decide as Hu.
  - rewrite decide_True by done. cbn. lia.
  - rewrite decide_False by tauto. lia.
Qed.

(** X18. One more [present] record for a project, dated like the others
    within the years 0000 to 9999, adds one day to the worker it belongs to
    and to no other worker.  When the project has a driver who is a stored
    user, it adds one day to the driver exactly when its UTC calendar day
    was not attended yet: a second mark on a day that already has one costs
    no further driver day.  When the project has no driver, or one who is
    not stored, the driver record has 0 days before and after. *)
Theorem one_more_attendance_record db (projectId : ObjectId) p
    (r : Attendance) :
  projects db !! projectId = Some p →
  a_project r = Some projectId →
  a_present r = true →
  in_four_digit_years (a_date r) →
  dates_in_range projectId (attendance db) →
  ∃ before after,
    (calculateLaborDetails projectId db).1 = inr before
    ∧ (calculateLaborDetails projectId (marked r db)).1 = inr after
    ∧ Forall2
        (λ b a, user a = user b
                ∧ daysPresent a
                  = daysPresent b
                    + (if bool_decide (a_user r = user b) then 1 else 0))
        (workers before) (workers after)
    ∧ (∀ d u,
         assignedDriver p = Some d → users db !! d = Some u →
         daysPresent (driver after)
         = daysPresent (driver before)
           + (if bool_decide (utc_day (a_date r)
                              ∈ attended_days projectId (attendance db))
              then 0 else 1))
    ∧ ((∀ d, assignedDriver p = Some d → users db !! d = None) →
       daysPresent (driver before) = 0 ∧ daysPresent (driver after) = 0).
Proof.
  intros Hp Hr Hb Hdate Hrange.
  destruct (calculateLaborDetails_found _ _ _ Hp)
    as (before & ? & -> & _ & Hws1 & Hdr1 & _).
  destruct (calculateLaborDetails_found (marked r db) projectId p Hp)
    as (after & ? & -> & _ & Hws2 & Hdr2 & _).
  cbn [users attendance marked] in Hws2, Hdr2.
  exists before, after. split; [done|]. split; [done|]. split_and!.
  - rewrite Hws1, Hws2.
    apply Forall2_fmap, Forall_Forall2_diag, Forall_forall.
    intros w _. cbn. split; [done|]. by apply worker_days_marked.
  - intros d u Hd Hu. rewrite Hd in Hdr1, Hdr2. cbn in Hdr1, Hdr2.
    rewrite Hu in Hdr1, Hdr2. cbn in Hdr1, Hdr2.
    rewrite Hdr1, Hdr2. cbn.
    rewrite (distinct_dates_days _ _ Hrange).
    rewrite (distinct_dates_days _ _
               (dates_in_range_marked _ _ _ Hdate Hrange)).
    by apply distinct_days_marked.
  - intros Hnone. destruct (assignedDriver p) as [d|]; cbn in Hdr1, Hdr2.
    + rewrite (Hnone d eq_refl) in Hdr1, Hdr2. cbn in Hdr1, Hdr2.
      destruct Hdr1 as [_ Hfig1], Hdr2 as [_ Hfig2].
      by injection Hfig1; injection Hfig2.
    + destruct Hdr1 as [_ Hfig1], Hdr2 as [_ Hfig2].
      by injection Hfig1; injection Hfig2.
Qed.

End LaborMore.

(** ** Paginated lists *)

Section Pages.

Import Listing.

Context {A : Type}.

Implicit Types (found : list A).

Lemma ceil_div_least (a b k : Z) : 0 < b → a ≤ k * b ↔ ceil_div a b ≤ k.
Proof.
  intros Hb. unfold ceil_div.
  pose proof (Z.div_mod (- a) b ltac:(lia)) as Hdiv.
  pose proof (Z.mod_pos_bound (- a) b Hb) as Hmod.
  split; intros H; nia.
Qed.

Lemma or_default_positive (n fallback : Z) :
  1 ≤ n → or_default (Some n) fallback = n.
Proof. intros Hn. cbn. by destruct (Z.eqb_spec n 0); [lia|]. Qed.

(** X19. A page of a list, for a page number and a limit of at least 1: the
    page holds [limit] documents, or what is left of the matching documents
    after the pages before it; [totalPages] is the least number of pages
    that hold all of them; and [hasNextPage] is true exactly when the page
    number is below [totalPages], that is exactly when documents are left
    after this page. *)
Theorem page_contents (pg lm : Z) found :
  1 ≤ pg → 1 ≤ lm →
  let items := (paginate (Some pg) (Some lm) found).1 in
  let info := (paginate (Some pg) (Some lm) found).2 in
  page info = pg ∧ limit info = lm
  ∧ total info = Z.of_nat (length found)
  ∧ Z.of_nat (length items)
    = Z.min lm (Z.max 0 (total info - (pg - 1) * lm))
  ∧ (∀ k, total info ≤ k * lm ↔ totalPages info ≤ k)
  ∧ (hasNextPage info = true ↔ pg < totalPages info)
  ∧ (hasNextPage info = true
     ↔ (pg - 1) * lm + Z.of_nat (length items) < total info).
Proof.
  intros Hpg Hlm items info. subst items info. unfold paginate.
  rewrite !or_default_positive by done.
  cbn [fst snd page limit total totalPages hasNextPage].
  assert (∀ k, Z.of_nat (length found) ≤ k * lm
               ↔ ceil_div (Z.of_nat (length found)) lm ≤ k) as Hleast.
  { intros k. apply ceil_div_least. lia. }
  assert (Z.of_nat (length (take (Z.to_nat lm)
                              (drop (Z.to_nat ((pg - 1) * lm)) found)))
          = Z.min lm (Z.max 0 (Z.of_nat (length found) - (pg - 1) * lm)))
    as Hlen.
  { rewrite length_take, length_drop. nia. }
  split_and!; try done.
  - rewrite Z.ltb_lt. pose proof (Hleast pg). lia.
  - rewrite Z.ltb_lt, Hlen. nia.
Qed.

Lemma chunks_concat (L n : nat) found :
  (0 < L)%nat → (length found ≤ n * L)%nat →
  concat ((λ k, take L (drop (k * L) found)) <$> seq 0 n) = found.
Proof.
  intros HL. revert found. induction n as [|n IH]; intros found Hlen.
  - by destruct found; [|cbn in Hlen; lia].
  - cbn [seq fmap list_fmap concat]. rewrite <- fmap_S_seq.
    rewrite <- list_fmap_compose.
    transitivity (app (take L found) (drop L found)); [|apply take_drop].
    f_equal.
    etrans; [|apply (IH (drop L found)); rewrite length_drop; lia].
    f_equal. apply list_fmap_ext. intros _ k _. cbn [compose].
    by rewrite drop_drop.
Qed.

(** X20. The pages of a list partition it: for a limit of at least 1, the
    pages 1 to [totalPages], one after the other, are exactly the matching
    documents, each document once and in the order of the sort. *)
Theorem pages_partition (lm : Z) found :
  1 ≤ lm →
  concat ((λ k, (paginate (Some (Z.of_nat k)) (Some lm) found).1)
            <$> seq 1 (Z.to_nat (totalPages
                                   (paginate (Some 1) (Some lm) found).2)))
  = found.
Proof.
  intros Hlm. unfold paginate at 2. cbn [snd totalPages].
  rewrite or_default_positive by done.
  set (n := Z.to_nat (ceil_div (Z.of_nat (length found)) lm)).
  assert (Z.of_nat (length found) ≤ Z.of_nat n * lm) as Hn.
  { apply ceil_div_least; [lia|]. subst n. lia. }
  rewrite <- fmap_S_seq, <- list_fmap_compose.
  etrans; [|apply (chunks_concat (Z.to_nat lm) n found); nia].
  f_equal. apply list_fmap_ext. intros _ k _. cbn [compose].
  unfold paginate. cbn [fst].
  rewrite !or_default_positive by lia.
  do 2 f_equal. lia.
Qed.

End Pages.

Section DriverList.

Import Listing.

Variable search_matches : string → Project → bool.
Variable newest_first : list (ObjectId * Project) → list (ObjectId * Project).

(** X21. A driver only sees the projects assigned to that driver:
    [getDriverProjects] answers 401 to a request without a user, and
    otherwise returns, whatever the page, the limit and the search, only
    stored projects whose [assignedDriver] is the caller and, when a status
    is asked for, whose status is that status; it never writes. *)
Theorem driver_sees_own_projects (userId : option ObjectId)
    (page' limit' : option Z) (status' search' : option string) (db : Db) :
  (∀ l, newest_first l ≡ₚ l) →
  match getDriverProjects search_matches newest_first userId page' limit'
          status' search' db with
  | (inl e, db') =>
    userId = None ∧ e = ApiError 401 "Unauthorized access" ∧ db' = db
  | (inr (items, info), db') =>
    db' = db
    ∧ ∃ driverId,
        userId = Some driverId
        ∧ Forall (λ kv : ObjectId * Project,
                    projects db !! kv.1 = Some kv.2
                    ∧ assignedDriver kv.2 = Some driverId
                    ∧ (JS.truthy status' = true →
                       Some (status kv.2) = status'))
                 items
  end.
Proof.
  intros Hsort. unfold getDriverProjects.
  destruct userId as [driverId|]; [|done]. run_handler.
  split; [done|]. exists driverId. split; [done|].
  unfold paginate. cbn [fst]. apply Forall_take, Forall_drop.
  rewrite Hsort. apply Forall_forall. intros [i p] Hin.
  apply list_elem_of_filter in Hin as [Hf Hin].
  apply elem_of_map_to_list in Hin. cbn in Hf |- *.
  unfold driver_filter in Hf.
  apply andb_true_iff in Hf as [Hf _].
  apply andb_true_iff in Hf as [Hd Hs].
  apply bool_decide_eq_true in Hd. split_and!; [done|done|].
  intros Ht. destruct status' as [s|]; [|done]. rewrite Ht in Hs.
  by apply String.eqb_eq in Hs as ->.
Qed.

End DriverList.


(** ** The further properties at work on the sample data *)

Section OnCases.

Import Mongo ProjectController ExpenseController LaborSpec Team Listing
  ExpenseReports Api Marking.

Lemma small_project :
  projects Cases.small !! 1%N
  = Some (mkProject "lpo_received" 0 None [] None).
Proof. vm_compute. reflexivity. Defined.

Lemma small_team : valid_team (users Cases.small) [10%N; 11%N] 12%N.
Proof.
  split; [discriminate|]. split.
  - apply (bool_decide_unpack _). vm_compute. exact I.
  - split.
    + intros w Hw. apply list_elem_of_In in Hw.
      destruct Hw as [<-|[<-|[]]];
        eexists; (split; [vm_compute; reflexivity | reflexivity]).
    + eexists; (split; [vm_compute; reflexivity | reflexivity]).
Defined.

(** Workers 10 and 11 and driver 12 can be assigned to the project of
    [small]. *)
Lemma assignTeamAndDriver_succeeds_iff_sample :
  ∃ r db',
    assignTeamAndDriver (Some 7%N) 1%N (Some [10%N; 11%N]) (Some 12%N)
      Cases.small
    = (inr r, db').
Proof.
  apply (assignTeamAndDriver_succeeds_iff (Some 7%N) Cases.small 1%N _
           (Some [10%N; 11%N]) (Some 12%N) small_project).
  split; [reflexivity|]. exists [10%N; 11%N], 12%N.
  split; [reflexivity|]. split; [reflexivity|]. exact small_team.
Defined.

(** A second assignment, with other workers, is refused. *)
Lemma assignTeamAndDriver_once_sample :
  ∃ r db',
    assignTeamAndDriver (Some 7%N) 1%N (Some [10%N; 11%N]) (Some 12%N)
      Cases.small
    = (inr r, db')
    ∧ ∃ message,
        assignTeamAndDriver (Some 8%N) 1%N (Some [10%N]) (Some 12%N) db'
        = (inl (ApiError 400 message), db').
Proof.
  eexists _, _. split.
  - vm_compute. reflexivity.
  - eapply (assignTeamAndDriver_once (Some 7%N) (Some 8%N) Cases.small 1%N
              (Some [10%N; 11%N]) (Some 12%N)).
    vm_compute. reflexivity.
Defined.

(** The team that was assigned is the team that is read back. *)
Lemma assigned_team_round_trip_sample :
  ∃ r db' members chauffeur,
    assignTeamAndDriver (Some 7%N) 1%N (Some [10%N; 11%N]) (Some 12%N)
      Cases.small
    = (inr r, db')
    ∧ getAssignedTeam 1%N db' = (inr (members, Some chauffeur), db')
    ∧ Some [10%N; 11%N] = Some (m_id <$> members)
    ∧ Some 12%N = Some (m_id chauffeur).
Proof.
  assert (∃ r db',
            assignTeamAndDriver (Some 7%N) 1%N (Some [10%N; 11%N])
              (Some 12%N) Cases.small
            = (inr r, db')) as (r & db' & Hrun).
  { eexists _, _. vm_compute. reflexivity. }
  destruct (assigned_team_round_trip _ _ _ _ _ _ _ Hrun)
    as (members & chauffeur & Hget & Hws & Hd).
  exists r, db', members, chauffeur. split; [exact Hrun|].
  split; [exact Hget|]. split; [exact Hws | exact Hd].
Defined.

(** Worker 11 alone replaces the workers of project 1 of the sample
    database; the status stays [work_started]. *)
Lemma updateWorkersAndDriver_effect_sample :
  ∃ r db',
    updateWorkersAndDriver 1%N (WorkersArray [11%N]) DriverUndefined
      Sample.db
    = (inr r, db')
    ∧ status r = "work_started" ∧ assignedWorkers r = [11%N]
    ∧ assignedDriver r = Some 12%N.
Proof.
  assert (∃ r db',
            updateWorkersAndDriver 1%N (WorkersArray [11%N]) DriverUndefined
              Sample.db
            = (inr r, db')) as (r & db' & Hrun).
  { eexists _, _. vm_compute. reflexivity. }
  destruct (updateWorkersAndDriver_effect Sample.db 1%N
              (mkProject "work_started" 0 None [10%N; 11%N] (Some 12%N))
              _ _ r db' ltac:(vm_compute; reflexivity) Hrun)
    as (_ & Hs & _ & _ & Hw & Hd).
  exists r, db'. split; [exact Hrun|]. split; [exact Hs|].
  split; [exact Hw | exact Hd].
Defined.

(** The driver of project 1 cannot be cleared without a workers array. *)
Lemma driver_cleared_only_with_workers_sample :
  updateWorkersAndDriver 1%N WorkersUndefined DriverNull Sample.db
  = (inl (ApiError 400 "Either workers or driver must be provided"),
     Sample.db).
Proof.
  exact (proj1 (driver_cleared_only_with_workers Sample.db 1%N
                  (mkProject "work_started" 0 None [10%N; 11%N] (Some 12%N))
                  ltac:(vm_compute; reflexivity))).
Defined.

(** The refused deletion of project 2 leaves the database as it was. *)
Lemma failed_request_changes_nothing_sample :
  ∃ e db', deleteProject 2%N Sample.db = (inl e, db') ∧ db' = Sample.db.
Proof.
  assert (∃ e db', deleteProject 2%N Sample.db = (inl e, db'))
    as (e & db' & Hrun).
  { eexists _, _. vm_compute. reflexivity. }
  exists e, db'. split; [exact Hrun|].
  exact (proj1 (proj2 (proj2 (failed_request_changes_nothing
                                validStatusTransitions None Sample.db 2%N
                                e db'))) Hrun).
Defined.

(** Progress 100 through [updateProject] leaves project 1 in
    [work_started]. *)
Lemma updateProject_progress_keeps_status_sample :
  ∃ p',
    updateProject validStatusTransitions (Some 7%N) 1%N None (Some 100)
      Sample.db
    = (inr (Some p'), set_projects (<[1%N := p']>) Sample.db)
    ∧ status p' = "work_started" ∧ progress p' = 100.
Proof.
  refine (proj1 (updateProject_progress_keeps_status validStatusTransitions
                   (Some 7%N) Sample.db 1%N
                   (mkProject "work_started" 0 None [10%N; 11%N] (Some 12%N))
                   100 _) _).
  - vm_compute. reflexivity.
  - lia.
Defined.

(** Progress 101 is refused for the missing project 8. *)
Lemma updateProjectProgress_answers_sample :
  updateProjectProgress (Some 7%N) 8%N (Some 101) Sample.db
  = (inl (ApiError 400 "Progress must be between 0 and 100"), Sample.db).
Proof.
  refine (proj1 (updateProjectProgress_answers (Some 7%N) Sample.db 8%N
                   (Some 101)) _).
  cbn. lia.
Defined.

(** Project 1 of [small], in [lpo_received], enters [team_assigned] by the
    assignment of its team, and cannot be moved there by [updateProject]. *)
Lemma team_assigned_only_by_assignment_sample :
  projects Cases.small !! 1%N = Some (mkProject "lpo_received" 0 None [] None)
  ∧ projects
      (call validStatusTransitions
         (AssignTeamAndDriver (Some 7%N) 1%N (Some [10%N; 11%N])
            (Some 12%N))
         Cases.small) !! 1%N
    = Some (mkProject "team_assigned" 0 (Some 7%N) [10%N; 11%N]
              (Some 12%N))
  ∧ (∃ userId workers driverId,
       AssignTeamAndDriver (Some 7%N) 1%N (Some [10%N; 11%N]) (Some 12%N)
       = AssignTeamAndDriver userId 1%N workers driverId)
  ∧ updateProject validStatusTransitions None 1%N (Some "team_assigned")
      None Cases.small
    = (inl (invalid_transition "lpo_received" "team_assigned"), Cases.small).
Proof.
  assert (projects Cases.small !! 1%N
          = Some (mkProject "lpo_received" 0 None [] None)) as Hp
    by (vm_compute; reflexivity).
  assert (projects
            (call validStatusTransitions
               (AssignTeamAndDriver (Some 7%N) 1%N (Some [10%N; 11%N])
                  (Some 12%N))
               Cases.small) !! 1%N
          = Some (mkProject "team_assigned" 0 (Some 7%N) [10%N; 11%N]
                    (Some 12%N))) as Hp'
    by (vm_compute; reflexivity).
  destruct (team_assigned_only_by_assignment Cases.small 1%N _ Hp)
    as [Honly Hrefused].
  split_and!; [exact Hp | exact Hp' | |].
  - refine (proj2 (Honly _ _ _ Hp' eq_refl)). cbn. discriminate.
  - exact (Hrefused None None I).
Defined.

(** The cancelled project 9 is completed by a progress update. *)
Lemma final_status_left_by_progress_sample :
  stored_status 9%N
    (updateProjectProgress (Some 7%N) 9%N (Some 100) Cases.with_cancelled)
  = Some "work_completed".
Proof.
  refine (proj2 (proj2 (final_status_left_by_progress (Some 7%N)
                          Cases.with_cancelled 9%N
                          (mkProject "cancelled" 50 None [] None)
                          (Some "in_progress") _ _))).
  - vm_compute. reflexivity.
  - apply (bool_decide_unpack _). vm_compute. exact I.
Defined.

Lemma sample_projects_valid : all_projects project_ok Sample.db.
Proof.
  intros id p Hp.
  apply (map_Forall_lookup_1
           (λ _ p, status p ∈ status_enum ∧ 0 ≤ progress p ≤ 100)
           (projects Sample.db) id p); [|exact Hp].
  apply (bool_decide_unpack _). vm_compute. exact I.
Defined.

(** The projects of the sample database are still valid after a day of
    requests. *)
Lemma requests_keep_projects_valid_sample :
  all_projects project_ok (calls validStatusTransitions Cases.day Sample.db).
Proof.
  apply requests_keep_projects_valid; [|exact sample_projects_valid].
  apply list_elem_of_here.
Defined.

Lemma small_teams_valid :
  all_projects (team_ok (users Cases.small)) Cases.small.
Proof.
  intros id p Hp. unfold Cases.small in Hp. cbn [projects] in Hp.
  apply lookup_singleton_Some in Hp as [_ <-].
  split; [constructor|]. split.
  - intros w Hw. by apply elem_of_nil in Hw.
  - intros d Hd. discriminate Hd.
Defined.

(** The teams of [small] are still valid after a day of requests. *)
Lemma requests_keep_teams_valid_sample :
  all_projects (team_ok (users Cases.small))
    (calls validStatusTransitions Cases.day Cases.small).
Proof.
  exact (requests_keep_teams_valid validStatusTransitions Cases.day
           Cases.small small_teams_valid).
Defined.

(** The project of [small], past [draft], survives the day, deletion
    included. *)
Lemma past_draft_never_deleted_sample :
  ∃ p',
    projects (calls validStatusTransitions Cases.day Cases.small) !! 1%N
    = Some p'
    ∧ status p' ≠ "draft".
Proof.
  apply (past_draft_never_deleted validStatusTransitions Cases.day
           Cases.small 1%N _ (list_elem_of_here _ _) small_project).
  discriminate.
Defined.

(** The draft project 3 of the sample database can be closed. *)
Lemma every_status_reachable_sample :
  reachable validStatusTransitions Sample.db 3%N "project_closed".
Proof.
  apply (every_status_reachable validStatusTransitions Sample.db 3%N
           (mkProject "draft" 0 None [] None) 10%N 12%N
           (Sample.worker (Some 50)) (Sample.chauffeur (Some 50)));
    [apply list_elem_of_here | vm_compute; reflexivity | reflexivity
    | vm_compute; reflexivity | reflexivity
    | vm_compute; reflexivity | reflexivity |].
  apply (bool_decide_unpack _). vm_compute. exact I.
Defined.


(** An absence on project 1 changes nothing in its breakdown. *)
Lemma labor_reads_present_records_only_sample :
  match (calculateLaborDetails 1%N Sample.db).1,
        (calculateLaborDetails 1%N (marked Cases.absence Sample.db)).1 with
  | inr d1, inr d2 => totals d1 = totals d2
  | inl e1, inl e2 => e1 = e2
  | _, _ => False
  end.
Proof.
  apply labor_reads_present_records_only;
    [reflexivity | reflexivity | vm_compute; reflexivity].
Defined.

(** On project 1 no user is marked twice on one day; it has two attended
    days, which are the days of its driver, and no worker has more. *)
Lemma workers_days_at_most_drivers_sample :
  distinct_days 1%N (attendance Sample.db) = 2
  ∧ ∃ details db',
      calculateLaborDetails 1%N Sample.db = (inr details, db')
      ∧ daysPresent (driver details) = 2
      ∧ Forall (λ w, daysPresent w ≤ daysPresent (driver details))
               (workers details).
Proof.
  assert (distinct_days 1%N (attendance Sample.db) = 2) as Hdays
    by (vm_compute; reflexivity).
  split; [exact Hdays|].
  destruct (workers_days_at_most_drivers Sample.db 1%N
              (mkProject "work_started" 0 None [10%N; 11%N] (Some 12%N)))
    as (details & db' & Hrun & _ & Hdriver & _).
  - vm_compute. reflexivity.
  - apply (bool_decide_unpack _). vm_compute. exact I.
  - intros i. destruct (decide (i = 10%N)) as [->|H10].
    { apply (bool_decide_unpack _). vm_compute. exact I. }
    destruct (decide (i = 11%N)) as [->|H11].
    { apply (bool_decide_unpack _). vm_compute. exact I. }
    cbn [attendance Sample.db].
    rewrite !filter_cons_False;
      [constructor | cbn; intros (_ & _ & E); congruence ..].
  - destruct (Hdriver 12%N (Sample.chauffeur (Some 50)) eq_refl
                ltac:(vm_compute; reflexivity)) as [Hd Hle].
    exists details, db'. rewrite Hdays in Hd.
    split_and!; [exact Hrun | exact Hd | exact Hle].
Defined.

(** The salaries of the sample database are not negative, and the
    breakdown of project 1 is bounded by its total. *)
Lemma labor_totals_bounded_sample :
  ∃ details db',
    calculateLaborDetails 1%N Sample.db = (inr details, db')
    ∧ Forall (λ w, 0 ≤ totalSalary w ≤ totalLaborCost details)
             (workers details)
    ∧ 0 ≤ totalSalary (driver details) ≤ totalLaborCost details.
Proof.
  eexists _, _. split; [vm_compute; reflexivity|].
  eapply (labor_totals_bounded Sample.db 1%N).
  - intros i u Hu.
    apply (map_Forall_lookup_1 (λ _ u, 0 ≤ default 0 (salary u))
             (users Sample.db) i u); [|exact Hu].
    apply (bool_decide_unpack _). vm_compute. exact I.
  - vm_compute. reflexivity.
Defined.

(** A second mark of user 11 on the second day of project 4 costs no
    further driver day. *)
Lemma one_more_attendance_record_sample :
  ∃ before after,
    (calculateLaborDetails 4%N Sample.db).1 = inr before
    ∧ (calculateLaborDetails 4%N (marked Cases.second_mark Sample.db)).1
      = inr after
    ∧ daysPresent (driver after) = daysPresent (driver before) + 0.
Proof.
  destruct (one_more_attendance_record Sample.db 4%N
              (mkProject "team_assigned" 30 None [10%N] (Some 13%N))
              Cases.second_mark)
    as (before & after & Hb & Ha & _ & Hd & _).
  - vm_compute. reflexivity.
  - reflexivity.
  - reflexivity.
  - apply (bool_decide_unpack _). vm_compute. exact I.
  - apply (bool_decide_unpack _). vm_compute. exact I.
  - exists before, after. split; [exact Hb|]. split; [exact Ha|].
    rewrite (Hd 13%N (Sample.chauffeur (Some 100)) eq_refl
               ltac:(vm_compute; reflexivity)).
    f_equal.
Defined.

(** The third page of ten of the twenty-five documents holds five, and is
    the last. *)
Lemma page_contents_sample :
  let items := (paginate (Some 3) (Some 10) Cases.documents).1 in
  let info := (paginate (Some 3) (Some 10) Cases.documents).2 in
  Z.of_nat (length items) = Z.min 10 (Z.max 0 (total info - (3 - 1) * 10))
  ∧ (hasNextPage info = true ↔ 3 < totalPages info).
Proof.
  destruct (page_contents 3 10 Cases.documents ltac:(lia) ltac:(lia))
    as (_ & _ & _ & Hlen & _ & Hnext & _).
  split; [exact Hlen | exact Hnext].
Defined.

(** The three pages of ten make up the twenty-five documents. *)
Lemma pages_partition_sample :
  concat ((λ k, (paginate (Some (Z.of_nat k)) (Some 10) Cases.documents).1)
            <$> seq 1 (Z.to_nat (totalPages
                                   (paginate (Some 1) (Some 10)
                                      Cases.documents).2)))
  = Cases.documents.
Proof. apply pages_partition. lia. Defined.

(** Driver 12 sees project 1 of the sample database, and no other. *)
Lemma driver_sees_own_projects_sample :
  match getDriverProjects (λ _ _, true) id (Some 12%N) None None None None
          Sample.db with
  | (inl e, db') => False
  | (inr (items, info), db') =>
    Forall (λ kv : ObjectId * Project, assignedDriver kv.2 = Some 12%N) items
    ∧ items.*1 = [1%N]
  end.
Proof.
  pose proof (driver_sees_own_projects (λ _ _, true) id (Some 12%N) None None
                None None Sample.db (λ l, reflexivity l)) as H.
  destruct (getDriverProjects (λ _ _, true) id (Some 12%N) None None None
              None Sample.db) as [[e|[items info]] db'] eqn:Hrun.
  - destruct H as [H _]. discriminate H.
  - destruct H as (_ & driverId & [= <-] & Hall). split.
    + eapply Forall_impl; [exact Hall|]. intros kv (_ & Hd & _). exact Hd.
    + revert Hrun. vm_compute. intros [= <- _ _]. reflexivity.
Defined.

End OnCases.
